(** * tweet: a Twitter poller with a persistent cursor and a Slack sink

    A shallow embedding of [library/tweet/tweet.go], [library/notifier/notify.go]
    and [main.go], followed by the properties of the query builder, of the
    cursor store, of the fetch step and of the start/stop handlers.

    Conventions.
    - Go strings are byte strings: [string] with [Ascii.ascii] bytes.
    - A Go [map[string]string] is a [gmap string string]; a nil map and an
      empty map read the same, which is all the program does with them.
    - A Go pointer that may be nil is an [option]; dereferencing [None]
      is a run-time panic, which the embedding makes an explicit outcome.
    - Functions of Go's standard library and of third-party packages whose
      behaviour is not fixed by this repository (JSON decoding, the HTTP
      transport, Unicode tables, the Slack client) are section variables. *)

From Stdlib Require Import ZArith NArith Ascii String List Lia Bool DecimalString.
From stdpp Require Import base option list gmap strings.

Local Open Scope stdpp_scope.

(** ** Fragments of Go's [strings] and [strconv] packages *)

Module GoStrings.

(** The double quote, the backslash, the space and the tab. *)
Definition dquote : ascii := "034"%char.
Definition backslash : ascii := "092"%char.
Definition space : ascii := "032"%char.
Definition tab : ascii := "009"%char.
Definition comma : ascii := "044"%char.

(** [strings.Join(elems, sep)]. *)
Fixpoint Join (elems : list string) (sep : string) : string :=
  match elems with
  | [] => ""
  | x :: rest =>
      match rest with
      | [] => x
      | _ :: _ => x +:+ sep +:+ Join rest sep
      end
  end.

(** [strings.Split(s, sep)] for a separator of one byte, which is how
    both call sites use it ([" "] and [","]).  The result is never
    empty: a string without the separator yields itself. *)
Fixpoint Split (s : string) (sep : ascii) : list string :=
  match s with
  | EmptyString => [""]
  | String c s' =>
      if Ascii.eqb c sep then "" :: Split s' sep
      else match Split s' sep with
           | w :: ws => String c w :: ws
           | [] => [String c ""]
           end
  end.

(** [strings.Contains(s, sub)], used to state what a query mentions. *)
Fixpoint Contains (s sub : string) : bool :=
  String.prefix sub s ||
  match s with
  | EmptyString => false
  | String _ s' => Contains s' sub
  end.

(** The byte [c] occurs in [s]. *)
Fixpoint hasByte (c : ascii) (s : string) : bool :=
  match s with
  | EmptyString => false
  | String d s' => Ascii.eqb d c || hasByte c s'
  end.

Definition hexDigit (n : N) : ascii :=
  match n with
  | 0 => "0" | 1 => "1" | 2 => "2" | 3 => "3" | 4 => "4" | 5 => "5"
  | 6 => "6" | 7 => "7" | 8 => "8" | 9 => "9" | 10 => "a" | 11 => "b"
  | 12 => "c" | 13 => "d" | 14 => "e" | _ => "f"
  end%N%char.

(** [strconv.appendEscapedRune] on a rune below [utf8.RuneSelf], with
    the double quote as quote character and neither [ASCIIonly] nor [graphicOnly]. *)
Definition escapeASCII (c : ascii) : string :=
  let n := N_of_ascii c in
  if Ascii.eqb c dquote || Ascii.eqb c backslash then String backslash (String c "")
  else if (32 <=? n)%N && (n <=? 126)%N then String c ""
  else match n with
       | 7 => String backslash "a"
       | 8 => String backslash "b"
       | 12 => String backslash "f"
       | 10 => String backslash "n"
       | 13 => String backslash "r"
       | 9 => String backslash "t"
       | 11 => String backslash "v"
       | _ => String backslash
                (String "x" (String (hexDigit (N.shiftr n 4))
                               (String (hexDigit (N.land n 15)) "")))
       end%N.

Section Quote.
(** What [strconv.Quote] appends for the rest of a string that starts
    at a byte [>= 0x80], closing quote excluded: this is where Go
    decodes UTF-8 and consults its Unicode tables. *)
Variable quoteTail : string -> string.

Fixpoint quoteBody (s : string) : string :=
  match s with
  | EmptyString => ""
  | String c s' =>
      if (N_of_ascii c <? 128)%N then escapeASCII c +:+ quoteBody s'
      else quoteTail s
  end.

(** [fmt.Sprintf("%q", s)], that is [strconv.Quote(s)]. *)
Definition Quote (s : string) : string :=
  String dquote (quoteBody s +:+ String dquote "").
End Quote.

End GoStrings.

Import GoStrings.

(** ** library/tweet: requests and results *)

Record Meta := mkMeta {
  NewestID : string;
  OldestID : string;
  ResultCount : Z;
  NextToken : string
}.

Record Tweets := mkTweets {
  Data : list (gmap string string);
  meta : Meta
}.

(** The zero value of [Tweets], which a fresh [Req] holds. *)
Definition zeroTweets : Tweets := mkTweets [] (mkMeta "" "" 0 "").

Record Req := mkReq {
  schemeHost : string;
  endpoint : string;
  queryParams : gmap string (list string);
  usersFilter : list string;
  keywordFilter : list string;
  tweets : Tweets
}.

Definition setQueryParam (k v : string) (r : Req) : Req :=
  mkReq (schemeHost r) (endpoint r) (<[k := [v]]> (queryParams r))
        (usersFilter r) (keywordFilter r) (tweets r).

Definition SetSinceTweetID (v : string) (r : Req) : Req :=
  setQueryParam "since_id" v r.

Definition setTweets (t : Tweets) (r : Req) : Req :=
  mkReq (schemeHost r) (endpoint r) (queryParams r)
        (usersFilter r) (keywordFilter r) t.

(** [url.Values.Get]: the first value stored under a key. *)
Definition queryParam (k : string) (r : Req) : option string :=
  match queryParams r !! k with
  | Some (v :: _) => Some v
  | _ => None
  end.

Definition parseQuery (r : Req) : Req :=
  let uf :=
    if (0 <? length (usersFilter r))%nat
    then "(from:" +:+ Join (usersFilter r) " OR " +:+ ")"
    else "" in
  let kf := "(" +:+ Join (keywordFilter r) " OR " +:+ ")" in
  if (0 <? String.length uf)%nat || (0 <? String.length kf)%nat
  then setQueryParam "query" (kf +:+ uf) r
  else r.

Definition WithEndpoint (e : string) (r : Req) : Req :=
  mkReq (schemeHost r) e (queryParams r)
        (usersFilter r) (keywordFilter r) (tweets r).

Definition WithUsers (users : list string) (r : Req) : Req :=
  mkReq (schemeHost r) (endpoint r) (queryParams r)
        users (keywordFilter r) (tweets r).

Section Keywords.
Variable quoteTail : string -> string.

(** The loop body of [WithKeywords]: a keyword that splits on [" "]
    into more than one piece is replaced by its [%q] rendering. *)
Definition escapeKeyword (w : string) : string :=
  if (1 <? length (Split w space))%nat then Quote quoteTail w else w.

Definition WithKeywords (keywords : list string) (r : Req) : Req :=
  let escapedKeywords := map escapeKeyword keywords in
  mkReq (schemeHost r) (endpoint r) (queryParams r)
        (usersFilter r) escapedKeywords (tweets r).
End Keywords.

Definition NewReq (opts : list (Req -> Req)) : Req :=
  let req :=
    setQueryParam "max_results" "10"
      (setQueryParam "tweet.fields" "created_at,text"
         (mkReq "https://api.twitter.com" "/2/tweets/search/recent" ∅ [] []
                zeroTweets)) in
  fold_left (fun req opt => opt req) opts req.


(** ** Errors, the host and the process state *)

Inductive error :=
| errAuthentication          (* errors.New("authentication error") *)
| errInvalidID               (* errors.New("invalid id") *)
| errInvalidBucket           (* errors.New("invalid bucket") *)
| errNoLatestTweetID         (* errors.New("no latest tweet id found") *)
| errNoLatestSearchTerms     (* errors.New("no latest search terms found") *)
| errHomedir                 (* homedir.Dir failed *)
| errMkdirAll                (* os.MkdirAll failed *)
| errBoltOpen                (* bolt.Open failed *)
| errNewRequest              (* http.NewRequest failed *)
| errTransport (msg : string)  (* http.DefaultClient.Do failed *)
| errSlack (msg : string).     (* slack.Client.PostMessage failed *)

(** Lines written at error or warning level.  Lines at info level only
    echo values and are left out. *)
Inductive logLine :=
| LogError (e : error)
| LogErrorMsg (m : string)
| LogWarn (m : string).

Record SlackArgs := mkSlackArgs {
  ChannelID : string;
  Attachment : option string
}.

(** [main.templateData] without its mutex: the embedding runs one function
    at a time, so the lock has nothing to exclude. *)
Record templateData := mkTemplateData {
  Started : bool;
  SchemeHostPort : string;
  SearchTerms : list string;
  Tweets_ : option Tweets;
  Cancel : option nat
}.

(** What the process reads from its surroundings and does not change. *)
Record Host := mkHost {
  homedir_Dir : option string;        (* [None]: homedir.Dir fails *)
  mkdir_ok : bool;                    (* os.MkdirAll would succeed *)
  open_ok : bool;                     (* bolt.Open succeeds on an existing directory *)
  TWITTER_BEARER_TOKEN : option string;
  SLACK_ACCESS_TOKEN : option string
}.

(** What the process changes: the bolt file (bucket name to bucket), the
    directory that holds it, the log, the calls made to the Slack client,
    the number of HTTP round trips made so far, the contexts created and
    those cancelled, and the shared [templateData]. *)
Record State := mkState {
  dir_exists : bool;
  db : gmap string (gmap string string);
  log : list logLine;
  outbox : list (SlackArgs * string);
  calls : nat;
  contexts : nat;
  cancelled : list nat;
  tdata : templateData
}.

Definition logLn (l : logLine) (s : State) : State :=
  mkState (dir_exists s) (db s) (log s ++ [l]) (outbox s) (calls s)
          (contexts s) (cancelled s) (tdata s).

Definition setDirExists (b : bool) (s : State) : State :=
  mkState b (db s) (log s) (outbox s) (calls s)
          (contexts s) (cancelled s) (tdata s).

Definition setDb (d : gmap string (gmap string string)) (s : State) : State :=
  mkState (dir_exists s) d (log s) (outbox s) (calls s)
          (contexts s) (cancelled s) (tdata s).

Definition pushOutbox (a : SlackArgs) (m : string) (s : State) : State :=
  mkState (dir_exists s) (db s) (log s) (outbox s ++ [(a, m)]) (calls s)
          (contexts s) (cancelled s) (tdata s).

Definition bumpCalls (s : State) : State :=
  mkState (dir_exists s) (db s) (log s) (outbox s) (S (calls s))
          (contexts s) (cancelled s) (tdata s).

(** [context.WithCancel]: a fresh context, named by its number. *)
Definition newContext (s : State) : State * nat :=
  (mkState (dir_exists s) (db s) (log s) (outbox s) (calls s)
           (S (contexts s)) (cancelled s) (tdata s), contexts s).

(** Calling the cancel function of context [c]. *)
Definition cancelCtx (c : nat) (s : State) : State :=
  mkState (dir_exists s) (db s) (log s) (outbox s) (calls s)
          (contexts s) (c :: cancelled s) (tdata s).

Definition setTdata (t : templateData) (s : State) : State :=
  mkState (dir_exists s) (db s) (log s) (outbox s) (calls s)
          (contexts s) (cancelled s) t.

(** ** library/tweet: the bolt store *)

Section Store.
Variable h : Host.

(** The prelude shared by the four store functions: find the home
    directory, create [~/AppData/tweet] when it is missing (a failure is
    only logged), open [tweet.db].  [bolt.Open] creates the file but not
    its directory. *)
Definition openStore (s : State) : State * option error :=
  match homedir_Dir h with
  | None => (logLn (LogError errHomedir) s, Some errHomedir)
  | Some _ =>
      let s1 :=
        if dir_exists s then s
        else if mkdir_ok h then setDirExists true s
             else logLn (LogError errMkdirAll) s in
      if dir_exists s1 && open_ok h then (s1, None)
      else (logLn (LogError errBoltOpen) s1, Some errBoltOpen)
  end.

(** [tx.CreateBucketIfNotExists(name)] on the bucket map of a transaction. *)
Definition CreateBucketIfNotExists (name : string)
    (d : gmap string (gmap string string))
  : gmap string (gmap string string) * gmap string string :=
  match d !! name with
  | Some b => (d, b)
  | None => (<[name := ∅]> d, ∅)
  end.

(** [b.Put(k, v)] on the bucket [name]. *)
Definition Put (name k v : string) (d : gmap string (gmap string string))
  : gmap string (gmap string string) :=
  <[name := <[k := v]> (default ∅ (d !! name))]> d.

(** [db.Update(fn)]: the changes of [fn] are kept when it returns nil and
    dropped when it returns an error.  A commit that fails on the disk
    is outside the model. *)
Definition Update
    (fn : gmap string (gmap string string) ->
          gmap string (gmap string string) * option error)
    (s : State) : State * option error :=
  match fn (db s) with
  | (d', None) => (setDb d' s, None)
  | (_, Some e) => (s, Some e)
  end.

Definition StoreLatestSearchTerms (r : Req) (s : State) : State * option error :=
  match openStore s with
  | (s1, Some e) => (s1, Some e)
  | (s1, None) =>
      let kw := keywordFilter r in
      Update (fun d =>
                let '(d1, _) := CreateBucketIfNotExists "meta" d in
                (Put "meta" "keywords" (Join kw ",") d1, None)) s1
  end.

Definition GetLatestSearchTerms (s : State) : State * (list string * option error) :=
  match openStore s with
  | (s1, Some e) => (s1, ([], Some e))
  | (s1, None) =>
      match db s1 !! "meta" with
      | None => (logLn (LogErrorMsg "Bucket meta does not exist") s1,
                 ([], Some errInvalidBucket))
      | Some b =>
          match b !! "keywords" with
          | None => (s1, ([], Some errNoLatestSearchTerms))
          | Some prev => (s1, (Split prev comma, None))
          end
      end
  end.

Definition StoreLatestTweetID (r : Req) (s : State) : State * option error :=
  match openStore s with
  | (s1, Some e) => (s1, Some e)
  | (s1, None) =>
      let id := NewestID (meta (tweets r)) in
      if String.eqb id "" then
        (logLn (LogWarn "current req object has no newest id, skip storing newest id") s1,
         Some errInvalidID)
      else
        Update (fun d =>
                  let '(d1, b) := CreateBucketIfNotExists "meta" d in
                  match b !! "newest" with
                  | Some prevNewestID =>
                      if String.leb id prevNewestID then (d1, None)
                      else (Put "meta" "newest" id d1, None)
                  | None => (Put "meta" "newest" id d1, None)
                  end) s1
  end.

Definition GetLatestTweetID (s : State) : State * (string * option error) :=
  match openStore s with
  | (s1, Some e) => (s1, ("", Some e))
  | (s1, None) =>
      match db s1 !! "meta" with
      | None => (logLn (LogErrorMsg "Bucket meta does not exist") s1,
                 ("", Some errInvalidBucket))
      | Some b =>
          match b !! "newest" with
          | None => (s1, ("", Some errNoLatestTweetID))
          | Some prev => (s1, (prev, None))
          end
      end
  end.

End Store.

(** The cursor as it stands in the store: key [newest] of bucket [meta]. *)
Definition cursor (s : State) : option string :=
  db s !! "meta" ≫= (fun b => b !! "newest").

(** A request whose last result carries the newest id [v]. *)
Definition withNewestID (v : string) (r : Req) : Req :=
  setTweets (mkTweets (Data (tweets r))
               (mkMeta v (OldestID (meta (tweets r)))
                  (ResultCount (meta (tweets r))) (NextToken (meta (tweets r))))) r.

(** The newest id a request carries. *)
Definition newestOf (r : Req) : string := NewestID (meta (tweets r)).

(** A run of [StoreLatestTweetID] calls, one per request, in order. *)
Definition storeAll (h : Host) (rs : list Req) (s : State) : State :=
  fold_left (fun s r => fst (StoreLatestTweetID h r s)) rs s.

(** The home directory is known and [tweet.db] can be opened, now or
    after its directory has been created. *)
Definition storeReachable (h : Host) (s : State) : bool :=
  match homedir_Dir h with
  | None => false
  | Some _ => open_ok h && (dir_exists s || mkdir_ok h)
  end.

(** ** library/tweet: the fetch *)

(** What the transport delivers: a status code, and what [io.ReadAll]
    obtains from the body, possibly cut short by a read error. *)
Record Response := mkResponse {
  StatusCode : Z;
  body : string;
  readErr : option error
}.

Section Fetch.
Variable h : Host.

(** [url.Values.Encode]. *)
Variable Encode : gmap string (list string) -> string.

(** Whether [http.NewRequest] accepts a URL. *)
Variable validURL : string -> bool.

(** [http.DefaultClient.Do]: the answer to the n-th round trip for a URL
    and a bearer token, an error message or a response. *)
Variable Do : nat -> string -> string -> string + Response.

(** [encoding/json]: whether a text is valid JSON, and what decoding a
    valid text into an existing [Tweets] leaves there. *)
Variable jsonValid : string -> bool.
Variable jsonDecode : string -> Tweets -> Tweets.

(** [json.Unmarshal(body, &r.tweets)] with its error dropped: a text that
    is not valid JSON is rejected before anything is written. *)
Definition Unmarshal (data : string) (t : Tweets) : Tweets :=
  if jsonValid data then jsonDecode data t else t.

Definition urlString (r : Req) : string :=
  schemeHost r +:+ endpoint r +:+ "?" +:+ Encode (queryParams r).

(** [Get] returns the state, the request as it has become, and the pair
    of Go results: the pointer [&r.tweets] (here the value it points to,
    [None] for nil) and the error. *)
Definition Get (r : Req) (s : State)
  : State * Req * (option Tweets * option error) :=
  match TWITTER_BEARER_TOKEN h with
  | None =>
      (logLn (LogErrorMsg
                "Unable to query twitter. TWITTER_BEARER_TOKEN env variable not set.") s,
       r, (None, Some errAuthentication))
  | Some token =>
      let r1 := parseQuery r in
      if negb (validURL (urlString r1)) then
        (logLn (LogError errNewRequest) s, r1, (None, Some errNewRequest))
      else
        match Do (calls s) (urlString r1) token with
        | inl msg =>
            (logLn (LogError (errTransport msg)) (bumpCalls s), r1,
             (None, Some (errTransport msg)))
        | inr resp =>
            let r2 := setTweets (Unmarshal (body resp) (tweets r1)) r1 in
            (bumpCalls s, r2, (Some (tweets r2), None))
        end
  end.

End Fetch.

(** ** library/notifier *)

Record Slack := mkSlack { client : string }.

(** How a function ends: it returns, it panics (the state reached is
    kept, to tell what was done before), or it ends the process. *)
Inductive outcome (A : Type) :=
| Returned (a : A)
| Panicked (s : State) (why : string)
| Exited (code : Z).
Arguments Returned {A} a.
Arguments Panicked {A} s why.
Arguments Exited {A} code.

Definition nilDereference : string :=
  "invalid memory address or nil pointer dereference".

Section Notifier.
Variable h : Host.

(** [slack.Client.PostMessage] for a client built from a token. *)
Variable PostMessage : string -> SlackArgs -> string -> option string.

Definition NewSlacker (s : State) : outcome (State * Slack) :=
  match SLACK_ACCESS_TOKEN h with
  | None => Exited 1
  | Some token => Returned (s, mkSlack token)
  end.

(** The method [Notify] of [Slack]; every call is recorded in [outbox]. *)
Definition Notify (sl : Slack) (msg : string) (args : SlackArgs) (s : State)
  : State * option error :=
  let s1 := pushOutbox args msg s in
  match PostMessage (client sl) args msg with
  | Some e => (logLn (LogError (errSlack e)) s1, Some (errSlack e))
  | None => (s1, None)
  end.

End Notifier.

(** ** main.go *)

(** The functions of Go's library and of the Slack client that the
    program calls and this repository does not define. *)
Record Library := mkLibrary {
  quoteTail : string -> string;
  TrimSpace : string -> string;
  Encode : gmap string (list string) -> string;
  validURL : string -> bool;
  Do : nat -> string -> string -> string + Response;
  jsonValid : string -> bool;
  jsonDecode : string -> Tweets -> Tweets;
  (* json.Unmarshal(body, &keyVal) into a fresh map[string]string *)
  decodeKeyVal : string -> gmap string string;
  PostMessage : string -> SlackArgs -> string -> option string
}.

Record NotifierObj := mkNotifierObj {
  notifier : Slack;
  notifyArgs : SlackArgs
}.

(** The values [startHandler] attaches to the context of the goroutine.
    [keyTdata] is the pointer to the one [templateData], which lives in
    [State]. *)
Record Ctx := mkCtx {
  ctxID : nat;
  keyKeywords : list string;
  keyInterval : Z;
  keyNotifierObj : option NotifierObj
}.

(** An incoming HTTP request: its method and the bytes of its body. *)
Record Request := mkRequest {
  Method : string;
  reqBody : string
}.

(** What a handler leaves in its [http.ResponseWriter]. *)
Record Reply := mkReply {
  replyHeader : list (string * string);
  replyStatus : Z;
  replyBody : string
}.

Definition corsHeader : list (string * string) :=
  [("Access-Control-Allow-Origin", "*");
   ("Access-Control-Allow-Headers",
    "Accept, Content-Type, Content-Length, Accept-Encoding, X-CSRF-Token, Authorization")].

Definition newline : string := String "010"%char "".

(** [http.Error(w, msg, code)]: the status and the message on a line. *)
Definition httpError (msg : string) (code : Z) : Reply :=
  mkReply corsHeader code (msg +:+ newline).

(** [w.Write(data)] on a fresh writer: status 200. *)
Definition httpWrite (data : string) : Reply :=
  mkReply corsHeader 200 data.

Definition StatusBadRequest : Z := 400.

(** [time.Minute * 3] in nanoseconds. *)
Definition threeMinutes : Z := 3 * 60 * 1000000000.

Definition outcome_bind {A B} (f : A -> outcome B) (m : outcome A) : outcome B :=
  match m with
  | Returned a => f a
  | Panicked s why => Panicked s why
  | Exited code => Exited code
  end.

#[export] Instance outcome_mbind : MBind outcome := @outcome_bind.

Definition setStarted (b : bool) (s : State) : State :=
  let t := tdata s in
  setTdata (mkTemplateData b (SchemeHostPort t) (SearchTerms t) (Tweets_ t) (Cancel t)) s.

Definition setSearchTerms (st : list string) (s : State) : State :=
  let t := tdata s in
  setTdata (mkTemplateData (Started t) (SchemeHostPort t) st (Tweets_ t) (Cancel t)) s.

Definition setTweetsPtr (tw : option Tweets) (s : State) : State :=
  let t := tdata s in
  setTdata (mkTemplateData (Started t) (SchemeHostPort t) (SearchTerms t) tw (Cancel t)) s.

Definition setCancel (c : option nat) (s : State) : State :=
  let t := tdata s in
  setTdata (mkTemplateData (Started t) (SchemeHostPort t) (SearchTerms t) (Tweets_ t) c) s.

(** The events a goroutine blocked in [select] wakes up on. *)
Inductive wakeup := TimerFired | CtxDone.

Section Main.
Variable h : Host.
Variable lib : Library.

(** The [for ... range tweets.Data] loop of [run]. *)
Fixpoint forward (notifierObj : option NotifierObj)
    (data : list (gmap string string)) (s : State) : outcome State :=
  match data with
  | [] => Returned s
  | tweet :: rest =>
      match tweet !! "text" with
      | None => forward notifierObj rest s
      | Some msg =>
          match notifierObj with
          | None => Panicked s nilDereference
          | Some o =>
              forward notifierObj rest
                (fst (Notify (PostMessage lib) (notifier o) msg (notifyArgs o) s))
          end
      end
  end.

(** The closure [run] of [start], first the part it executes holding
    [tdata.mutex]: it yields the request as it has become, the state and
    the pointer that [Get] returned. *)
Definition runLocked (req : Req) (s : State) : Req * State * option Tweets :=
  let '(s1, (id, err)) := GetLatestTweetID h s in
  let req1 := match err with None => SetSinceTweetID id req | Some _ => req end in
  let '(s2, req2, (tweets, err)) :=
    Get h (Encode lib) (validURL lib) (Do lib) (jsonValid lib) (jsonDecode lib) req1 s1 in
  let s3 := match err with Some e => logLn (LogError e) s2 | None => s2 end in
  let s4 := fst (StoreLatestTweetID h req2 s3) in
  (req2, setTweetsPtr tweets s4, tweets).

(** Then the whole closure: [tweets.Data] dereferences the pointer. *)
Definition run (notifierObj : option NotifierObj) (req : Req) (s : State)
  : outcome (Req * State) :=
  let '(req2, s5, tweets) := runLocked req s in
  match tweets with
  | None => Panicked s5 nilDereference
  | Some t => s6 ← forward notifierObj (Data t) s5; Returned (req2, s6)
  end.

(** The [for { select { ... } }] loop of [start], over the wakeups the
    goroutine gets; with none left it is blocked in [select]. *)
Fixpoint pollLoop (notifierObj : option NotifierObj) (ws : list wakeup)
    (req : Req) (s : State) : outcome State :=
  match ws with
  | [] => Returned s
  | TimerFired :: ws' =>
      '(req', s') ← run notifierObj req s; pollLoop notifierObj ws' req' s'
  | CtxDone :: _ => Returned (setStarted false s)
  end.

Definition start (ctx : Ctx) (ws : list wakeup) (s : State) : outcome State :=
  let kw := keyKeywords ctx in
  let notifierObj := keyNotifierObj ctx in
  let s0 := setStarted true s in
  let req := NewReq [WithUsers ["markets"]; WithKeywords (quoteTail lib) kw] in
  '(req1, s1) ← run notifierObj req s0;
  let s2 := fst (StoreLatestSearchTerms h req1 s1) in
  let '(s3, (st, err)) := GetLatestSearchTerms h s2 in
  let s4 := match err with Some e => logLn (LogError e) s3 | None => s3 end in
  let s5 := setSearchTerms st s4 in
  pollLoop notifierObj ws req1 s5.

(** A handler yields the state, its reply and the goroutine it spawned. *)
Definition startHandler (req : Request) (s : State)
  : outcome (State * Reply * option Ctx) :=
  if String.eqb (Method req) "OPTIONS" then
    Returned (s, mkReply corsHeader 200 "", None)
  else if String.eqb (Method req) "POST" then
    if Started (tdata s) then
      Returned (s, httpError "400 Subscription already started" StatusBadRequest, None)
    else
      let '(s1, cancel) := newContext s in
      let s2 := setCancel (Some cancel) s1 in
      let keyVal := decodeKeyVal lib (reqBody req) in
      let kwStr := default "" (keyVal !! "keywords") in
      let kw := map (TrimSpace lib) (Split kwStr comma) in
      let slackChannel := default "" (keyVal !! "slackChannelID") in
      '(s3, notifierObj) ←
        (if String.eqb slackChannel "" then Returned (s2, None)
         else '(s', sl) ← NewSlacker h s2;
              Returned (s', Some (mkNotifierObj sl (mkSlackArgs slackChannel None))));
      Returned (s3, httpWrite "Success: Started polling tweets",
                Some (mkCtx cancel kw threeMinutes notifierObj))
  else
    Returned (s, httpError "400 Only POST method is supported" StatusBadRequest, None).

Definition stopHandler (req : Request) (s : State)
  : outcome (State * Reply) :=
  if String.eqb (Method req) "OPTIONS" then
    Returned (s, mkReply corsHeader 200 "")
  else if String.eqb (Method req) "POST" then
    match Cancel (tdata s) with
    | None => Panicked s nilDereference
    | Some c => Returned (cancelCtx c s, httpWrite "Success: Stopped polling tweets")
    end
  else
    Returned (s, httpError "400 Only POST method is supported" StatusBadRequest).

(** [NewTemplateData(host, port)], and the state [main] starts from. *)
Definition NewTemplateData (host : string) (port : Z) (s : State)
  : State * templateData :=
  let '(s1, (st, _)) := GetLatestSearchTerms h s in
  (s1, mkTemplateData false
         ("http://" +:+ host +:+ ":" +:+ DecimalString.NilZero.string_of_int (Z.to_int port))
         st None None).

End Main.


(** ** Reference notions used in the statements *)

(** What one guarded write does to the cursor. *)
Definition advance (c : option string) (id : string) : option string :=
  if String.eqb id "" then c
  else match c with
       | Some prev => if String.leb id prev then Some prev else Some id
       | None => Some id
       end.

(** The number a string of decimal digits denotes, if it is one. *)
Fixpoint decimalFrom (acc : N) (s : string) : option N :=
  match s with
  | EmptyString => Some acc
  | String c s' =>
      let n := N_of_ascii c in
      if (48 <=? n)%N && (n <=? 57)%N
      then decimalFrom (acc * 10 + (n - 48))%N s'
      else None
  end.

Definition decimalValue (s : string) : option N :=
  match s with
  | EmptyString => None
  | _ => decimalFrom 0%N s
  end.

(** The order of the numbers two decimal strings denote; [false] when one
    of them is not a decimal string. *)
Definition numericLeb (a b : string) : bool :=
  match decimalValue a, decimalValue b with
  | Some x, Some y => (x <=? y)%N
  | _, _ => false
  end.

(** A string of decimal digits. *)
Fixpoint allDigits (s : string) : bool :=
  match s with
  | EmptyString => true
  | String c s' =>
      (48 <=? N_of_ascii c)%N && (N_of_ascii c <=? 57)%N && allDigits s'
  end.

(** Printable ASCII other than the double quote and the backslash: the
    bytes [strconv.Quote] copies unchanged. *)
Fixpoint plainASCII (s : string) : bool :=
  match s with
  | EmptyString => true
  | String c s' =>
      (32 <=? N_of_ascii c)%N && (N_of_ascii c <=? 126)%N &&
      negb (Ascii.eqb c dquote) && negb (Ascii.eqb c backslash) && plainASCII s'
  end.

(** Whether a record has a [text] field. *)
Definition hasText (tweet : gmap string string) : bool :=
  bool_decide (is_Some (tweet !! "text")).

(** ** A host, a library and a state to run the program on *)

Definition inQuotes (s : string) : string :=
  String dquote (s +:+ String dquote "").

(** The body [{"keywords":"oil"}]: a start command without a Slack
    channel. *)
Definition bodyOil : string :=
  "{" +:+ inQuotes "keywords" +:+ ":" +:+ inQuotes "oil" +:+ "}".

(** The body of a search response with three records, the first of
    them without a text, as the decoder below reads it. *)
Definition bodyTweets : string :=
  "{" +:+ inQuotes "data" +:+ ":[{" +:+ inQuotes "id" +:+ ":" +:+ inQuotes "148" +:+
  "},{" +:+ inQuotes "text" +:+ ":" +:+ inQuotes "Oil rallies" +:+
  "},{" +:+ inQuotes "text" +:+ ":" +:+ inQuotes "Gold slips" +:+
  "}]," +:+ inQuotes "meta" +:+ ":{" +:+
  inQuotes "newest_id" +:+ ":" +:+ inQuotes "150" +:+ "}}".

Definition demoTweets : Tweets :=
  mkTweets [{["id" := "148"]}; {["text" := "Oil rallies"]}; {["text" := "Gold slips"]}]
           (mkMeta "150" "" 0 "").

Definition demoHost : Host :=
  mkHost (Some "/home/user") true true (Some "bearer") (Some "xoxb").

(** A library that knows the two bodies above, answers every round trip
    with [status] and [bodyText], and delivers every Slack message. *)
Definition demoLibrary (status : Z) (bodyText : string) : Library :=
  mkLibrary
    (fun s => s)
    (fun s => s)
    (fun _ => "")
    (fun _ => true)
    (fun _ _ _ => inr (mkResponse status bodyText None))
    (fun data => String.eqb data bodyTweets)
    (fun data t => if String.eqb data bodyTweets then demoTweets else t)
    (fun data => if String.eqb data bodyOil then {["keywords" := "oil"]} else ∅)
    (fun _ _ _ => None).

(** The state of a process that has not touched anything yet. *)
Definition freshState : State :=
  mkState false ∅ [] [] 0 0 [] (mkTemplateData false "" [] None None).

(** The state [main] serves requests from. *)
Definition bootState (h : Host) (host : string) (port : Z) : State :=
  let '(s, t) := NewTemplateData h host port freshState in setTdata t s.

Definition postRequest (data : string) : Request := mkRequest "POST" data.

(** The number a digit string denotes, most significant digit first. *)
Fixpoint digitsValue (s : string) : N :=
  match s with
  | EmptyString => 0
  | String c s' =>
      (N_of_ascii c - 48) * 10 ^ N.of_nat (String.length s') + digitsValue s'
  end%N.

(** The keyword [central<TAB>bank]: whitespace, but no space. *)
Definition tabKeyword : string := "central" +:+ String tab "bank".

(** A library whose transport fails every round trip with [msg]. *)
Definition failingTransport (msg : string) (lib : Library) : Library :=
  mkLibrary (quoteTail lib) (TrimSpace lib) (Encode lib)
            (fun _ => true) (fun _ _ _ => inl msg)
            (jsonValid lib) (jsonDecode lib) (decodeKeyVal lib) (PostMessage lib).

(** A host with the bearer token set to [token]. *)
Definition withBearerToken (token : string) (h : Host) : Host :=
  mkHost (homedir_Dir h) (mkdir_ok h) (open_ok h) (Some token) (SLACK_ACCESS_TOKEN h).

(** ** library/tweet: the remaining options *)

(** [fmt.Sprint] of an integer: its decimal numeral. *)
Definition Sprint (n : Z) : string :=
  DecimalString.NilZero.string_of_int (Z.to_int n).

Definition WithSinceTweetID (id : Z) (r : Req) : Req :=
  setQueryParam "since_id" (Sprint id) r.

Definition WithMaxResults (cnt : Z) (r : Req) : Req :=
  setQueryParam "max_results" (Sprint cnt) r.

(** The options the package exports. *)
Inductive packageOption (qt : string -> string) : (Req -> Req) -> Prop :=
| optEndpoint (e : string) : packageOption qt (WithEndpoint e)
| optUsers (us : list string) : packageOption qt (WithUsers us)
| optKeywords (ws : list string) : packageOption qt (WithKeywords qt ws)
| optSinceTweetID (id : Z) : packageOption qt (WithSinceTweetID id)
| optMaxResults (cnt : Z) : packageOption qt (WithMaxResults cnt).

(** ** Further notions used in the statements *)

(** What no exported option changes, and what [parseQuery] alone sets. *)
Definition optionInvariant (r : Req) : Prop :=
  schemeHost r = "https://api.twitter.com" /\
  queryParam "tweet.fields" r = Some "created_at,text" /\
  queryParam "query" r = None /\
  tweets r = zeroTweets /\
  is_Some (queryParam "max_results" r).


(** The search terms as they stand in the store: key [keywords] of bucket
    [meta]. *)
Definition storedTerms (s : State) : option string :=
  db s !! "meta" ≫= (fun b => b !! "keywords").

(** No byte of the keyword is a comma. *)
Definition commaFree (w : string) : Prop := hasByte comma w = false.

(** A transport that accepts every URL and answers every round trip. *)
Definition answers (lib : Library) : Prop :=
  (forall url, validURL lib url = true) /\
  (forall n url token, exists resp, Do lib n url token = inr resp).

(** The timer wakeups that come before the first cancellation. *)
Fixpoint ticksBefore (ws : list wakeup) : nat :=
  match ws with
  | TimerFired :: ws' => S (ticksBefore ws')
  | _ => 0%nat
  end.

Definition isDone (w : wakeup) : bool :=
  match w with
  | CtxDone => true
  | TimerFired => false
  end.

(** The error lines of the deliveries that fail, for the records that
    have a [text]. *)
Definition failedDeliveries (lib : Library) (o : NotifierObj)
    (data : list (gmap string string)) : list logLine :=
  omap (fun tweet : gmap string string =>
          msg ← tweet !! "text";
          e ← PostMessage lib (client (notifier o)) (notifyArgs o) msg;
          Some (LogError (errSlack e))) data.

(** * Properties *)

(** Case analysis on every [match] and [if] of the goal. *)
Ltac break_matches :=
  repeat match goal with
         | |- context [match ?x with _ => _ end] => destruct x; simpl
         | |- context [if ?b then _ else _] => destruct b; simpl
         end.

(** ** The order of Go's string comparison *)

Lemma ascii_compare_refl (a : ascii) : Ascii.compare a a = Eq.
Proof. unfold Ascii.compare. apply N.compare_refl. Qed.

Lemma string_compare_refl (s : string) : String.compare s s = Eq.
Proof.
  induction s as [|a s IH]; simpl; [reflexivity|].
  rewrite ascii_compare_refl. exact IH.
Qed.

Lemma leb_refl (s : string) : String.leb s s = true.
Proof. unfold String.leb. rewrite string_compare_refl. reflexivity. Qed.

Lemma ascii_compare_eq (a b : ascii) : Ascii.compare a b = Eq -> a = b.
Proof. apply Ascii.compare_eq_iff. Qed.

(** [compare] never answers [Gt] along a chain of two steps that do not. *)
Lemma string_compare_trans (s1 s2 s3 : string) :
  String.compare s1 s2 <> Gt -> String.compare s2 s3 <> Gt ->
  String.compare s1 s3 <> Gt.
Proof.
  revert s2 s3.
  induction s1 as [|a s1 IH]; intros [|b s2] [|c s3]; simpl; try congruence.
  unfold Ascii.compare.
  destruct (N.compare_spec (N_of_ascii a) (N_of_ascii b)) as [Hab|Hab|Hab];
    destruct (N.compare_spec (N_of_ascii b) (N_of_ascii c)) as [Hbc|Hbc|Hbc];
    try congruence; intros H12 H23.
  - rewrite Hab, Hbc, N.compare_refl. eapply IH; eassumption.
  - assert (Hlt : (N_of_ascii a < N_of_ascii c)%N) by lia.
    apply N.compare_lt_iff in Hlt. rewrite Hlt. discriminate.
  - assert (Hlt : (N_of_ascii a < N_of_ascii c)%N) by lia.
    apply N.compare_lt_iff in Hlt. rewrite Hlt. discriminate.
  - assert (Hlt : (N_of_ascii a < N_of_ascii c)%N) by lia.
    apply N.compare_lt_iff in Hlt. rewrite Hlt. discriminate.
Qed.

Lemma leb_trans (s1 s2 s3 : string) :
  String.leb s1 s2 = true -> String.leb s2 s3 = true -> String.leb s1 s3 = true.
Proof.
  unfold String.leb. intros H12 H23.
  pose proof (string_compare_trans s1 s2 s3) as Ht.
  destruct (String.compare s1 s2); try discriminate;
    destruct (String.compare s2 s3); try discriminate;
    destruct (String.compare s1 s3); try reflexivity;
    exfalso; apply Ht; congruence.
Qed.

Lemma leb_false_le (s1 s2 : string) :
  String.leb s1 s2 = false -> String.leb s2 s1 = true.
Proof.
  intros H. destruct (String.leb_total s1 s2) as [H'|H']; congruence.
Qed.

(** ** The cursor store *)

Section StoreFacts.
Variable h : Host.

Lemma openStore_reachable (s : State) :
  storeReachable h s = true ->
  exists s1, openStore h s = (s1, None) /\ db s1 = db s /\ log s1 = log s /\
             tdata s1 = tdata s /\ outbox s1 = outbox s /\
             dir_exists s1 = true.
Proof.
  unfold storeReachable, openStore.
  destruct (homedir_Dir h); [|discriminate].
  destruct (dir_exists s) eqn:Hd; simpl.
  - rewrite Hd. simpl. intros ->%andb_true_iff%proj1.
    exists s. repeat split; assumption.
  - destruct (open_ok h); simpl; [|discriminate].
    intros ->. simpl. eexists. repeat split.
Qed.

Lemma cursor_Put (id : string) (d : gmap string (gmap string string)) :
  Put "meta" "newest" id d !! "meta" ≫= (fun b => b !! "newest") = Some id.
Proof. unfold Put. rewrite lookup_insert_eq. simpl. apply lookup_insert_eq. Qed.

Lemma StoreLatestTweetID_cursor (r : Req) (s : State) :
  storeReachable h s = true ->
  cursor (fst (StoreLatestTweetID h r s)) = advance (cursor s) (newestOf r) /\
  storeReachable h (fst (StoreLatestTweetID h r s)) = true.
Proof.
  intros Hr.
  destruct (openStore_reachable s Hr) as (s1 & Ho & Hdb & _ & _ & _ & Hdir).
  assert (Hr1 : forall s', dir_exists s' = true -> storeReachable h s' = true).
  { intros s' Hs'. unfold storeReachable in *. rewrite Hs'.
    destruct (homedir_Dir h); [|discriminate].
    apply andb_true_iff in Hr as [-> _]. reflexivity. }
  unfold StoreLatestTweetID, advance, newestOf, cursor. rewrite Ho.
  destruct (String.eqb (NewestID (meta (tweets r))) "") eqn:He; simpl.
  { rewrite Hdb. split; [reflexivity|]. apply Hr1. exact Hdir. }
  unfold Update, CreateBucketIfNotExists. rewrite <- Hdb.
  destruct (db s1 !! "meta") as [b|] eqn:Hb; simpl.
  - destruct (b !! "newest") as [prev|] eqn:Hp; simpl.
    + destruct (String.leb (NewestID (meta (tweets r))) prev); simpl.
      * rewrite Hb. simpl. split; [exact Hp|]. apply Hr1. exact Hdir.
      * split; [apply cursor_Put|]. apply Hr1. exact Hdir.
    + split; [apply cursor_Put|]. apply Hr1. exact Hdir.
  - rewrite lookup_empty. simpl. split; [apply cursor_Put|]. apply Hr1. exact Hdir.
Qed.

Lemma storeAll_cursor (rs : list Req) (s : State) :
  storeReachable h s = true ->
  cursor (storeAll h rs s) = fold_left advance (map newestOf rs) (cursor s).
Proof.
  revert s. induction rs as [|r rs IH]; intros s Hr; simpl; [reflexivity|].
  destruct (StoreLatestTweetID_cursor r s Hr) as [Hc Hr'].
  unfold storeAll in *. simpl. rewrite IH by exact Hr'. rewrite Hc. reflexivity.
Qed.

End StoreFacts.

(** The cursor never moves down, and once present it stays present. *)
Lemma advance_mono (c : option string) (id p : string) :
  c = Some p -> exists q, advance c id = Some q /\ String.leb p q = true.
Proof.
  intros ->. unfold advance.
  destruct (String.eqb id ""); [exists p; split; [reflexivity|apply leb_refl]|].
  destruct (String.leb id p) eqn:Hl.
  - exists p. split; [reflexivity|apply leb_refl].
  - exists id. split; [reflexivity|]. apply leb_false_le. exact Hl.
Qed.

Lemma fold_advance_mono (ids : list string) (c : option string) (p : string) :
  c = Some p ->
  exists q, fold_left advance ids c = Some q /\ String.leb p q = true.
Proof.
  revert c p. induction ids as [|id ids IH]; intros c p Hc; simpl.
  - exists p. split; [exact Hc|apply leb_refl].
  - destruct (advance_mono c id p Hc) as (q & Hq & Hpq).
    destruct (IH _ _ Hq) as (q' & Hq' & Hqq').
    exists q'. split; [exact Hq'|]. eapply leb_trans; eassumption.
Qed.

Lemma advance_covers (c : option string) (id : string) :
  id <> "" -> exists q, advance c id = Some q /\ String.leb id q = true.
Proof.
  intros Hne. unfold advance.
  destruct (String.eqb_spec id ""); [contradiction|].
  destruct c as [p|].
  - destruct (String.leb id p) eqn:Hl.
    + exists p. split; [reflexivity|exact Hl].
    + exists id. split; [reflexivity|apply leb_refl].
  - exists id. split; [reflexivity|apply leb_refl].
Qed.

Lemma fold_advance_covers (ids : list string) (c : option string) (v : string) :
  In v ids -> v <> "" ->
  exists q, fold_left advance ids c = Some q /\ String.leb v q = true.
Proof.
  revert c. induction ids as [|id ids IH]; intros c Hin Hne; simpl; [destruct Hin|].
  destruct Hin as [->|Hin].
  - destruct (advance_covers c v Hne) as (q & Hq & Hvq).
    destruct (fold_advance_mono ids _ q Hq) as (q' & Hq' & Hqq').
    exists q'. split; [exact Hq'|]. eapply leb_trans; eassumption.
  - apply IH; assumption.
Qed.

Lemma fold_advance_attained (ids : list string) (c : option string) (q : string) :
  fold_left advance ids c = Some q ->
  c = Some q \/ (In q ids /\ q <> "").
Proof.
  revert c. induction ids as [|id ids IH]; intros c; simpl; [tauto|].
  intros Hf. destruct (IH _ Hf) as [Ha|[Hin Hne]]; [|tauto].
  unfold advance in Ha.
  destruct (String.eqb_spec id ""); [tauto|].
  destruct c as [p|].
  - destruct (String.leb id p); [tauto|].
    injection Ha as ->. tauto.
  - injection Ha as ->. tauto.
Qed.


Lemma StoreLatestTweetID_noop (h : Host) (r : Req) (s : State) (p : string) :
  storeReachable h s = true ->
  cursor s = Some p ->
  newestOf r <> "" ->
  String.leb (newestOf r) p = true ->
  snd (StoreLatestTweetID h r s) = None /\
  db (fst (StoreLatestTweetID h r s)) = db s /\
  log (fst (StoreLatestTweetID h r s)) = log s.
Proof.
  intros Hr Hc Hne Hle.
  destruct (openStore_reachable h s Hr) as (s1 & Ho & Hdb & Hlog & _ & _ & _).
  unfold StoreLatestTweetID, newestOf in *. rewrite Ho.
  destruct (String.eqb_spec (NewestID (meta (tweets r))) ""); [contradiction|].
  unfold cursor in Hc. rewrite <- Hdb in Hc.
  unfold Update, CreateBucketIfNotExists.
  destruct (db s1 !! "meta") as [b|] eqn:Hb; simpl in Hc; [|discriminate].
  rewrite Hc, Hle. simpl. auto.
Qed.

Lemma StoreLatestTweetID_empty (h : Host) (r : Req) (s : State) :
  storeReachable h s = true ->
  newestOf r = "" ->
  snd (StoreLatestTweetID h r s) = Some errInvalidID /\
  db (fst (StoreLatestTweetID h r s)) = db s.
Proof.
  intros Hr He.
  destruct (openStore_reachable h s Hr) as (s1 & Ho & Hdb & _).
  unfold StoreLatestTweetID, newestOf in *. rewrite Ho, He. simpl. auto.
Qed.

(** C1 (as amended).  Against a store that can be opened, after any run
    of [StoreLatestTweetID] calls the stored cursor is the greatest, in
    the byte-wise lexicographic order of Go's string comparison, of the
    cursor stored before and the non-empty newest ids written: it is at
    least each of them, and it is one of them.  A write whose non-empty
    candidate is at most the stored cursor returns nil and changes
    neither the store nor the log; an empty candidate is refused with
    the error [invalid id] and changes nothing in the store. *)
Theorem cursor_is_lexicographic_max (h : Host) (rs : list Req) (s : State) :
  storeReachable h s = true ->
  (forall v, In v (map newestOf rs) -> v <> "" ->
     exists c, cursor (storeAll h rs s) = Some c /\ String.leb v c = true) /\
  (forall p, cursor s = Some p ->
     exists c, cursor (storeAll h rs s) = Some c /\ String.leb p c = true) /\
  (forall c, cursor (storeAll h rs s) = Some c ->
     cursor s = Some c \/ (In c (map newestOf rs) /\ c <> "")) /\
  (forall r p, cursor s = Some p -> newestOf r <> "" ->
     String.leb (newestOf r) p = true ->
     snd (StoreLatestTweetID h r s) = None /\
     db (fst (StoreLatestTweetID h r s)) = db s /\
     log (fst (StoreLatestTweetID h r s)) = log s) /\
  (forall r, newestOf r = "" ->
     snd (StoreLatestTweetID h r s) = Some errInvalidID /\
     db (fst (StoreLatestTweetID h r s)) = db s).
Proof.
  intros Hr. rewrite (storeAll_cursor h rs s Hr).
  split; [|split; [|split; [|split]]].
  - intros v Hin Hne. apply fold_advance_covers; assumption.
  - intros p Hp. apply fold_advance_mono. exact Hp.
  - intros c Hc. apply fold_advance_attained. exact Hc.
  - intros r p Hp Hne Hle. eapply StoreLatestTweetID_noop; eassumption.
  - intros r He. apply StoreLatestTweetID_empty; assumption.
Qed.

(** Scenario 3 of the specification: ids 100, 150, 120 written in turn
    to an empty store. *)
Lemma cursor_is_lexicographic_max_witness :
  storeReachable demoHost freshState = true /\
  cursor (storeAll demoHost
            [withNewestID "100" (NewReq []); withNewestID "150" (NewReq []);
             withNewestID "120" (NewReq [])] freshState) = Some "150".
Proof.
  split; [reflexivity|].
  pose proof (cursor_is_lexicographic_max demoHost
                [withNewestID "100" (NewReq []); withNewestID "150" (NewReq []);
                 withNewestID "120" (NewReq [])] freshState eq_refl)
    as (Hup & _ & Hatt & _).
  destruct (Hup "150") as (c & Hc & Hle);
    [simpl; auto | discriminate |].
  rewrite Hc. f_equal.
  destruct (Hatt c Hc) as [Hf|[Hin _]]; [discriminate Hf|].
  simpl in Hin.
  destruct Hin as [<-|[<-|[<-|[]]]]; [discriminate Hle|reflexivity|discriminate Hle].
Defined.

(** C1, counterexample.  The ids 9 and 10 written in turn to an empty
    store: the second write returns nil and is dropped, and the cursor
    stays at 9, which is numerically below the 10 that was written.  An
    empty id written after them is not a silent no-op either: it is
    refused with the error [invalid id]. *)
Lemma cursor_not_numeric_max :
  let s1 := storeAll demoHost [withNewestID "9" (NewReq [])] freshState in
  snd (StoreLatestTweetID demoHost (withNewestID "10" (NewReq [])) s1) = None /\
  cursor (storeAll demoHost
            [withNewestID "9" (NewReq []); withNewestID "10" (NewReq [])]
            freshState) = Some "9" /\
  numericLeb "10" "9" = false /\
  String.leb "10" "9" = true /\
  snd (StoreLatestTweetID demoHost (withNewestID "" (NewReq [])) s1) = Some errInvalidID.
Proof. vm_compute. repeat split. Qed.


(** ** Lexicographic and numeric order agree on digit strings of one length *)

Lemma digitsValue_bound (s : string) :
  allDigits s = true ->
  (digitsValue s < 10 ^ N.of_nat (String.length s))%N.
Proof.
  induction s as [|c s IH]; simpl String.length; simpl digitsValue; simpl allDigits;
    [reflexivity|].
  intros [[Hlo%N.leb_le Hhi%N.leb_le]%andb_true_iff Hs]%andb_true_iff.
  specialize (IH Hs).
  rewrite Nat2N.inj_succ, N.pow_succ_r'.
  set (P := (10 ^ N.of_nat (String.length s))%N) in *.
  nia.
Qed.

Lemma decimalFrom_digitsValue (s : string) (acc : N) :
  allDigits s = true ->
  decimalFrom acc s =
  Some (acc * 10 ^ N.of_nat (String.length s) + digitsValue s)%N.
Proof.
  revert acc. induction s as [|c s IH]; intros acc; simpl allDigits;
    simpl String.length; simpl digitsValue; simpl decimalFrom.
  - intros _. f_equal. simpl. lia.
  - intros [Hc Hs]%andb_true_iff. rewrite Hc, (IH _ Hs).
    apply andb_true_iff in Hc as [Hlo%N.leb_le Hhi%N.leb_le].
    f_equal. rewrite Nat2N.inj_succ, N.pow_succ_r'.
    set (P := (10 ^ N.of_nat (String.length s))%N). nia.
Qed.

Lemma leb_digitsValue (a b : string) :
  allDigits a = true -> allDigits b = true ->
  String.length a = String.length b ->
  String.leb a b = (digitsValue a <=? digitsValue b)%N.
Proof.
  revert b. induction a as [|c a IH]; intros [|d b]; simpl String.length;
    try discriminate; [reflexivity|].
  intros Ha Hb Hlen. injection Hlen as Hlen.
  pose proof (digitsValue_bound _ Ha) as Ba0.
  pose proof (digitsValue_bound _ Hb) as Bb0.
  simpl allDigits in Ha, Hb.
  apply andb_true_iff in Ha as [[Hc1%N.leb_le Hc2%N.leb_le]%andb_true_iff Ha].
  apply andb_true_iff in Hb as [[Hd1%N.leb_le Hd2%N.leb_le]%andb_true_iff Hb].
  pose proof (digitsValue_bound _ Ha) as Ba.
  pose proof (digitsValue_bound _ Hb) as Bb.
  specialize (IH b Ha Hb Hlen).
  simpl digitsValue. rewrite <- Hlen in *.
  set (P := (10 ^ N.of_nat (String.length a))%N) in *.
  unfold String.leb in *. simpl String.compare. unfold Ascii.compare.
  destruct (N.compare_spec (N_of_ascii c) (N_of_ascii d)) as [He|Hlt|Hgt].
  - rewrite IH, He.
    destruct (N.leb_spec (digitsValue a) (digitsValue b));
      symmetry; [apply N.leb_le|apply N.leb_gt]; nia.
  - symmetry. apply N.leb_le. nia.
  - symmetry. apply N.leb_gt. nia.
Qed.

(** On ids that are decimal numerals with the same number of digits, as
    the ids of one epoch are, the guard of [StoreLatestTweetID] decides
    by numeric order. *)
Lemma leb_numeric_equal_length (a b : string) :
  allDigits a = true -> allDigits b = true -> a <> "" ->
  String.length a = String.length b ->
  String.leb a b = numericLeb a b.
Proof.
  intros Ha Hb Hne Hlen.
  rewrite (leb_digitsValue a b Ha Hb Hlen).
  unfold numericLeb, decimalValue.
  destruct a as [|c a]; [contradiction|].
  destruct b as [|d b]; [discriminate|].
  rewrite !decimalFrom_digitsValue by assumption. reflexivity.
Qed.


(** ** The query builder *)

Lemma Split_nonempty (s : string) (c : ascii) : Split s c <> [].
Proof.
  destruct s as [|d s]; simpl; [discriminate|].
  destruct (Ascii.eqb d c); [discriminate|].
  destruct (Split s c); discriminate.
Qed.

(** [strings.Split(w, " ")] has more than one piece exactly when [w]
    holds a space. *)
Lemma Split_several (s : string) (c : ascii) :
  (1 <? length (Split s c))%nat = hasByte c s.
Proof.
  induction s as [|d s IH]; simpl; [reflexivity|].
  destruct (Ascii.eqb d c); simpl.
  - pose proof (Split_nonempty s c) as Hne.
    destruct (Split s c); [contradiction|reflexivity].
  - pose proof (Split_nonempty s c) as Hne.
    destruct (Split s c) as [|w ws]; [contradiction|]. exact IH.
Qed.

Lemma escapeKeyword_hasByte (qt : string -> string) (w : string) :
  escapeKeyword qt w = if hasByte space w then Quote qt w else w.
Proof. unfold escapeKeyword. rewrite Split_several. reflexivity. Qed.

Lemma escapeASCII_plain (c : ascii) :
  (32 <=? N_of_ascii c)%N && (N_of_ascii c <=? 126)%N &&
  negb (Ascii.eqb c dquote) && negb (Ascii.eqb c backslash) = true ->
  escapeASCII c = String c "" /\ (N_of_ascii c <? 128)%N = true.
Proof.
  intros [[[Hlo Hhi]%andb_true_iff Hq%negb_true_iff]%andb_true_iff
            Hb%negb_true_iff]%andb_true_iff.
  unfold escapeASCII. rewrite Hq, Hb, Hlo, Hhi. simpl. split; [reflexivity|].
  apply N.leb_le in Hhi. apply N.ltb_lt. lia.
Qed.

Lemma quoteBody_plain (qt : string -> string) (w : string) :
  plainASCII w = true -> quoteBody qt w = w.
Proof.
  induction w as [|c w IH]; simpl; [reflexivity|].
  intros [Hc Hw]%andb_true_iff.
  destruct (escapeASCII_plain c Hc) as [-> ->]. simpl. rewrite IH; auto.
Qed.

Lemma Quote_plain (qt : string -> string) (w : string) :
  plainASCII w = true -> Quote qt w = inQuotes w.
Proof. intros Hw. unfold Quote, inQuotes. rewrite quoteBody_plain; auto. Qed.

Lemma tweets_parseQuery (r : Req) : tweets (parseQuery r) = tweets r.
Proof. unfold parseQuery. destruct (_ || _); reflexivity. Qed.

(** The query [parseQuery] sets: the keyword group, then the user group
    when there are users. *)
Lemma parseQuery_query (r : Req) :
  queryParam "query" (parseQuery r) =
  Some (("(" +:+ Join (keywordFilter r) " OR " +:+ ")") +:+
        match usersFilter r with
        | [] => ""
        | _ :: _ => "(from:" +:+ Join (usersFilter r) " OR " +:+ ")"
        end).
Proof.
  unfold parseQuery, queryParam.
  replace ((0 <? String.length ("(" +:+ Join (keywordFilter r) " OR " +:+ ")"))%nat)
    with true by reflexivity.
  rewrite orb_true_r. simpl queryParams. rewrite lookup_insert_eq.
  destruct (usersFilter r); reflexivity.
Qed.

Lemma NewReq_filters (qt : string -> string) (us ws : list string) :
  usersFilter (NewReq [WithUsers us; WithKeywords qt ws]) = us /\
  keywordFilter (NewReq [WithUsers us; WithKeywords qt ws]) = map (escapeKeyword qt) ws.
Proof. split; reflexivity. Qed.

(** Scenario 1 of the specification, and the escapes of [%q]. *)
Example query_oil_gold (qt : string -> string) :
  queryParam "query" (parseQuery (NewReq [WithUsers []; WithKeywords qt ["oil"; "gold"]]))
  = Some "(oil OR gold)".
Proof. reflexivity. Qed.

Example Quote_escapes (qt : string -> string) :
  Quote qt ("a " +:+ String dquote ("b" +:+ String tab (String "001"%char "")))
  = String dquote ("a " +:+ String backslash (String dquote
      ("b" +:+ String backslash ("t" +:+ String backslash ("x01" +:+ String dquote ""))))).
Proof. reflexivity. Qed.

Example Split_commas : Split "oil, gold,,fx" comma = ["oil"; " gold"; ""; "fx"].
Proof. reflexivity. Qed.

Example Split_empty : Split "" comma = [""].
Proof. reflexivity. Qed.

(** C4 (what the code does).  With two users only the first one carries
    the prefix: the query for keywords oil, gold and users markets,
    business is [(oil OR gold)(from:markets OR business)], in which
    [from:markets] occurs and [from:business] does not. *)
Theorem second_user_not_prefixed (qt : string -> string) :
  queryParam "query"
    (parseQuery (NewReq [WithUsers ["markets"; "business"];
                         WithKeywords qt ["oil"; "gold"]]))
  = Some "(oil OR gold)(from:markets OR business)" /\
  Contains "(oil OR gold)(from:markets OR business)" "from:markets" = true /\
  Contains "(oil OR gold)(from:markets OR business)" "from:business" = false.
Proof. repeat split. Qed.

(** ** The fetch *)

Section FetchFacts.
Variable h : Host.
Variable Encode : gmap string (list string) -> string.
Variable validURL : string -> bool.
Variable Do : nat -> string -> string -> string + Response.
Variable jsonValid : string -> bool.
Variable jsonDecode : string -> Tweets -> Tweets.

(** Once the transport has delivered a response, [Get] returns it
    decoded into the stored result, with a nil error and nothing logged. *)
Lemma Get_response (r : Req) (s : State) (token : string) (resp : Response) :
  TWITTER_BEARER_TOKEN h = Some token ->
  validURL (urlString Encode (parseQuery r)) = true ->
  Do (calls s) (urlString Encode (parseQuery r)) token = inr resp ->
  Get h Encode validURL Do jsonValid jsonDecode r s =
  (bumpCalls s,
   setTweets (Unmarshal jsonValid jsonDecode (body resp) (tweets r)) (parseQuery r),
   (Some (Unmarshal jsonValid jsonDecode (body resp) (tweets r)), None)).
Proof.
  intros Ht Hu Hd. unfold Get. rewrite Ht, Hu, Hd. simpl.
  rewrite tweets_parseQuery. reflexivity.
Qed.

(** An error from [Get] always comes with a nil result. *)
Lemma Get_error_nil (r : Req) (s : State) :
  match snd (Get h Encode validURL Do jsonValid jsonDecode r s) with
  | (Some _, Some _) => False
  | (None, None) => False
  | _ => True
  end.
Proof.
  unfold Get. destruct (TWITTER_BEARER_TOKEN h); simpl; [|exact I].
  destruct (validURL _); simpl; [|exact I].
  destruct (Do _ _ _); simpl; exact I.
Qed.

End FetchFacts.

(** C10.  Whatever response the transport delivers, with any status code
    and any body, read in full or cut short, [Get] returns a nil error
    and logs nothing at error level.  What it returns is the stored
    result after decoding the bytes read into it; when these bytes are
    not valid JSON that is the result stored before, unchanged. *)
Theorem Get_succeeds_on_any_response
    (h : Host) (Encode : gmap string (list string) -> string)
    (validURL : string -> bool) (Do : nat -> string -> string -> string + Response)
    (jsonValid : string -> bool) (jsonDecode : string -> Tweets -> Tweets)
    (r : Req) (s : State) (token : string) (resp : Response) :
  TWITTER_BEARER_TOKEN h = Some token ->
  validURL (urlString Encode (parseQuery r)) = true ->
  Do (calls s) (urlString Encode (parseQuery r)) token = inr resp ->
  exists s' r' t,
    Get h Encode validURL Do jsonValid jsonDecode r s = (s', r', (Some t, None)) /\
    tweets r' = t /\
    log s' = log s /\
    (jsonValid (body resp) = false -> t = tweets r).
Proof.
  intros Ht Hu Hd.
  rewrite (Get_response h Encode validURL Do jsonValid jsonDecode r s token resp Ht Hu Hd).
  eexists _, _, _. split; [reflexivity|]. split; [reflexivity|].
  split; [reflexivity|].
  intros Hv. unfold Unmarshal. rewrite Hv. reflexivity.
Qed.

(** A 500 response whose body is not JSON, after an earlier result. *)
Lemma Get_succeeds_on_any_response_witness :
  let r := setTweets demoTweets (NewReq [WithUsers ["markets"]; WithKeywords (fun s => s) ["oil"]]) in
  let lib := demoLibrary 500 "Internal Server Error" in
  TWITTER_BEARER_TOKEN demoHost = Some "bearer" /\
  validURL lib (urlString (Encode lib) (parseQuery r)) = true /\
  Do lib (calls freshState) (urlString (Encode lib) (parseQuery r)) "bearer"
    = inr (mkResponse 500 "Internal Server Error" None) /\
  exists s' r' t,
    Get demoHost (Encode lib) (validURL lib) (Do lib) (jsonValid lib) (jsonDecode lib)
        r freshState = (s', r', (Some t, None)) /\
    tweets r' = t /\
    log s' = log freshState /\
    (jsonValid lib (body (mkResponse 500 "Internal Server Error" None)) = false ->
     t = tweets r).
Proof.
  intros r lib. split; [reflexivity|]. split; [reflexivity|]. split; [reflexivity|].
  exact (Get_succeeds_on_any_response demoHost (Encode lib) (validURL lib) (Do lib)
           (jsonValid lib) (jsonDecode lib) r freshState "bearer"
           (mkResponse 500 "Internal Server Error" None) eq_refl eq_refl eq_refl).
Defined.


(** What the query mentions. *)

Lemma append_nil_r (s : string) : s +:+ "" = s.
Proof.
  induction s as [|c s IH]; [reflexivity|].
  change (String c (s +:+ "") = String c s). f_equal. exact IH.
Qed.

Lemma append_assoc (a b c : string) : a +:+ b +:+ c = (a +:+ b) +:+ c.
Proof.
  induction a as [|x a IH]; [reflexivity|].
  change (String x (a +:+ b +:+ c) = String x ((a +:+ b) +:+ c)). f_equal. exact IH.
Qed.

Lemma prefix_append (x y : string) : String.prefix x (x +:+ y) = true.
Proof.
  induction x as [|c x IH]; simpl; [destruct y; reflexivity|].
  destruct (ascii_dec c c) as [_|Hne]; [exact IH|contradiction].
Qed.

Lemma Contains_append_r (a b x : string) :
  Contains b x = true -> Contains (a +:+ b) x = true.
Proof.
  intros Hb. induction a as [|c a IH]; simpl; [exact Hb|].
  change (String.prefix x (String c (a +:+ b)) || Contains (a +:+ b) x = true).
  rewrite IH. apply orb_true_r.
Qed.

Lemma Contains_here (x y : string) : Contains (x +:+ y) x = true.
Proof.
  pose proof (prefix_append x y) as Hp.
  destruct (x +:+ y); simpl in *; rewrite Hp; reflexivity.
Qed.

Lemma Contains_Join (elems : list string) (sep k : string) :
  In k elems -> exists pre post, Join elems sep = pre +:+ k +:+ post.
Proof.
  induction elems as [|x rest IH]; intros Hin; [destruct Hin|].
  destruct Hin as [->|Hin].
  - exists "". destruct rest as [|y rest]; simpl.
    + exists "". symmetry. apply append_nil_r.
    + exists (sep +:+ Join (y :: rest) sep). reflexivity.
  - destruct (IH Hin) as (pre & post & Hj).
    destruct rest as [|y rest]; [destruct Hin|].
    exists (x +:+ sep +:+ pre), post.
    change (Join (x :: y :: rest) sep) with (x +:+ sep +:+ Join (y :: rest) sep).
    rewrite Hj. rewrite <- !append_assoc. reflexivity.
Qed.

Lemma Contains_middle (pre k post : string) :
  Contains (pre +:+ k +:+ post) k = true.
Proof. apply Contains_append_r, Contains_here. Qed.

(** The query mentions every keyword of the filter, and the first user
    behind the prefix [from:]. *)
Lemma parseQuery_mentions (r : Req) (q : string) :
  queryParam "query" (parseQuery r) = Some q ->
  (forall k, In k (keywordFilter r) -> Contains q k = true) /\
  (forall u us, usersFilter r = u :: us -> Contains q ("from:" +:+ u) = true).
Proof.
  rewrite parseQuery_query. intros [= <-]. split.
  - intros k Hin. destruct (Contains_Join _ " OR " k Hin) as (pre & post & ->).
    replace (("(" +:+ (pre +:+ k +:+ post) +:+ ")") +:+
             match usersFilter r with
             | [] => ""
             | _ :: _ => "(from:" +:+ Join (usersFilter r) " OR " +:+ ")"
             end)
      with (("(" +:+ pre) +:+ k +:+
            (post +:+ ")" +:+
             match usersFilter r with
             | [] => ""
             | _ :: _ => "(from:" +:+ Join (usersFilter r) " OR " +:+ ")"
             end)).
    + apply Contains_middle.
    + rewrite <- !append_assoc. reflexivity.
  - intros u us ->. apply Contains_append_r.
    change ("(from:" +:+ Join (u :: us) " OR " +:+ ")")
      with ("(" +:+ "from:" +:+ Join (u :: us) " OR " +:+ ")").
    apply (Contains_append_r "(").
    destruct us as [|v us].
    + simpl Join. rewrite append_assoc. apply Contains_here.
    + change (Join (u :: v :: us) " OR ") with (u +:+ " OR " +:+ Join (v :: us) " OR ").
      replace ("from:" +:+ (u +:+ " OR " +:+ Join (v :: us) " OR ") +:+ ")")
        with (("from:" +:+ u) +:+ (" OR " +:+ Join (v :: us) " OR " +:+ ")")).
      * apply Contains_here.
      * rewrite <- !append_assoc. reflexivity.
Qed.


(** C9 (as amended).  A keyword that contains a space (U+0020) enters
    the keyword filter as its [%q] rendering, which for a keyword of
    printable ASCII without double quote or backslash is the keyword
    between double quotes; and keywords [central bank] with users
    [markets] give the query [("central bank")(from:markets)]. *)
Theorem keyword_with_space_is_quoted
    (qt : string -> string) (ws us : list string) (i : nat) (w : string) :
  ws !! i = Some w ->
  hasByte space w = true ->
  keywordFilter (NewReq [WithUsers us; WithKeywords qt ws]) !! i = Some (Quote qt w) /\
  (plainASCII w = true -> Quote qt w = inQuotes w) /\
  queryParam "query"
    (parseQuery (NewReq [WithUsers ["markets"]; WithKeywords qt ["central bank"]]))
  = Some ("(" +:+ inQuotes "central bank" +:+ ")(from:markets)").
Proof.
  intros Hi Hsp. split; [|split].
  - destruct (NewReq_filters qt us ws) as [_ ->].
    rewrite list_lookup_fmap, Hi. simpl.
    rewrite escapeKeyword_hasByte, Hsp. reflexivity.
  - apply Quote_plain.
  - reflexivity.
Qed.

Lemma keyword_with_space_is_quoted_witness :
  ["oil"; "central bank"] !! 1%nat = Some "central bank" /\
  hasByte space "central bank" = true /\
  keywordFilter (NewReq [WithUsers ["markets"];
                         WithKeywords (fun s => s) ["oil"; "central bank"]]) !! 1%nat
  = Some (Quote (fun s => s) "central bank") /\
  (plainASCII "central bank" = true ->
   Quote (fun s => s) "central bank" = inQuotes "central bank") /\
  queryParam "query"
    (parseQuery (NewReq [WithUsers ["markets"];
                         WithKeywords (fun s => s) ["central bank"]]))
  = Some ("(" +:+ inQuotes "central bank" +:+ ")(from:markets)").
Proof.
  split; [reflexivity|]. split; [reflexivity|].
  exact (keyword_with_space_is_quoted (fun s => s) ["oil"; "central bank"]
           ["markets"] 1%nat "central bank" eq_refl eq_refl).
Defined.

(** C9, counterexample.  A keyword whose only whitespace is a tab is
    not quoted: it enters the filter and the query as it is. *)
Lemma tab_keyword_not_quoted :
  hasByte tab tabKeyword = true /\
  keywordFilter (NewReq [WithUsers ["markets"]; WithKeywords (fun s => s) [tabKeyword]])
  = [tabKeyword] /\
  queryParam "query"
    (parseQuery (NewReq [WithUsers ["markets"]; WithKeywords (fun s => s) [tabKeyword]]))
  = Some ("(" +:+ tabKeyword +:+ ")(from:markets)").
Proof. repeat split. Qed.

(** C5 (as amended).  An empty keyword list is not rejected: with users
    present [parseQuery] sets the query to the empty group [()] followed
    by the user group, and [Get] sends it and returns a nil error once
    the transport answers. *)
Theorem empty_keywords_query (r : Req) :
  keywordFilter r = [] ->
  usersFilter r <> [] ->
  queryParam "query" (parseQuery r)
  = Some ("()" +:+ "(from:" +:+ Join (usersFilter r) " OR " +:+ ")") /\
  forall (h : Host) (Encode : gmap string (list string) -> string)
         (validURL : string -> bool) (Do : nat -> string -> string -> string + Response)
         (jsonValid : string -> bool) (jsonDecode : string -> Tweets -> Tweets)
         (s : State) (token : string) (resp : Response),
    TWITTER_BEARER_TOKEN h = Some token ->
    validURL (urlString Encode (parseQuery r)) = true ->
    Do (calls s) (urlString Encode (parseQuery r)) token = inr resp ->
    snd (snd (Get h Encode validURL Do jsonValid jsonDecode r s)) = None.
Proof.
  intros Hk Hu. split.
  - rewrite parseQuery_query, Hk. destruct (usersFilter r); [contradiction|reflexivity].
  - intros h Encode validURL Do jsonValid jsonDecode s token resp Ht Hv Hd.
    rewrite (Get_response h Encode validURL Do jsonValid jsonDecode r s token resp Ht Hv Hd).
    reflexivity.
Qed.

Lemma empty_keywords_query_witness :
  let r := NewReq [WithUsers ["markets"]; WithKeywords (fun s => s) []] in
  keywordFilter r = [] /\
  usersFilter r <> [] /\
  (queryParam "query" (parseQuery r)
   = Some ("()" +:+ "(from:" +:+ Join (usersFilter r) " OR " +:+ ")") /\
   forall (h : Host) (Encode : gmap string (list string) -> string)
          (validURL : string -> bool) (Do : nat -> string -> string -> string + Response)
          (jsonValid : string -> bool) (jsonDecode : string -> Tweets -> Tweets)
          (s : State) (token : string) (resp : Response),
     TWITTER_BEARER_TOKEN h = Some token ->
     validURL (urlString Encode (parseQuery r)) = true ->
     Do (calls s) (urlString Encode (parseQuery r)) token = inr resp ->
     snd (snd (Get h Encode validURL Do jsonValid jsonDecode r s)) = None).
Proof.
  intros r. split; [reflexivity|]. split; [discriminate|].
  exact (empty_keywords_query r eq_refl ltac:(discriminate)).
Defined.

(** C5, counterexample.  A request for users [markets] and no keywords:
    the query [()(from:markets)] is produced, and [Get] sends it and
    returns the decoded answer with a nil error. *)
Lemma empty_keywords_not_rejected :
  let r := NewReq [WithUsers ["markets"]; WithKeywords (fun s => s) []] in
  let lib := demoLibrary 200 bodyTweets in
  keywordFilter r = [] /\
  queryParam "query" (parseQuery r) = Some "()(from:markets)" /\
  snd (Get demoHost (Encode lib) (validURL lib) (Do lib) (jsonValid lib) (jsonDecode lib)
           r freshState) = (Some demoTweets, None).
Proof. vm_compute. repeat split. Qed.


(** ** The poll loop *)

(** The store functions and the fetch leave the Slack outbox alone. *)

Lemma openStore_outbox (h : Host) (s : State) :
  outbox (fst (openStore h s)) = outbox s.
Proof. unfold openStore. break_matches; reflexivity. Qed.

Lemma GetLatestTweetID_outbox (h : Host) (s : State) :
  outbox (fst (GetLatestTweetID h s)) = outbox s.
Proof.
  unfold GetLatestTweetID. pose proof (openStore_outbox h s) as Ho.
  destruct (openStore h s) as [s1 [e|]]; simpl in *; [exact Ho|].
  break_matches; exact Ho.
Qed.

Lemma StoreLatestTweetID_outbox (h : Host) (r : Req) (s : State) :
  outbox (fst (StoreLatestTweetID h r s)) = outbox s.
Proof.
  unfold StoreLatestTweetID, Update. pose proof (openStore_outbox h s) as Ho.
  destruct (openStore h s) as [s1 [e|]]; simpl in *; [exact Ho|].
  break_matches; exact Ho.
Qed.

Lemma Get_outbox (h : Host) (lib : Library) (r : Req) (s : State) :
  outbox (fst (fst (Get h (Encode lib) (validURL lib) (Do lib) (jsonValid lib)
                        (jsonDecode lib) r s))) = outbox s.
Proof. unfold Get. break_matches; reflexivity. Qed.

Section LoopFacts.
Variable h : Host.
Variable lib : Library.

Lemma openStore_log (s : State) :
  exists l, log (fst (openStore h s)) = log s ++ l.
Proof.
  unfold openStore. destruct (homedir_Dir h); simpl; [|eexists; reflexivity].
  destruct (dir_exists s) eqn:Hd; simpl.
  - rewrite Hd. simpl. destruct (open_ok h); simpl.
    + exists []. symmetry. apply app_nil_r.
    + eexists; reflexivity.
  - destruct (mkdir_ok h); simpl.
    + destruct (open_ok h); simpl; [exists []; symmetry; apply app_nil_r|].
      eexists; reflexivity.
    + rewrite Hd. simpl. rewrite <- app_assoc. eexists; reflexivity.
Qed.

(** [StoreLatestTweetID] only adds to the log. *)
Lemma StoreLatestTweetID_log (r : Req) (s : State) :
  exists l, log (fst (StoreLatestTweetID h r s)) = log s ++ l.
Proof.
  unfold StoreLatestTweetID.
  destruct (openStore_log s) as [l Hl].
  destruct (openStore h s) as [s1 [e|]]; simpl in *; [exists l; exact Hl|].
  destruct (String.eqb _ _); simpl.
  - rewrite Hl, <- app_assoc. eexists; reflexivity.
  - unfold Update. destruct (CreateBucketIfNotExists "meta" (db s1)) as [d1 b].
    destruct (b !! "newest") as [p|]; [destruct (String.leb _ p)|]; simpl;
      exists l; exact Hl.
Qed.

(** A fetch that fails leaves a nil pointer behind, after the error has
    been logged. *)
Lemma runLocked_fetch_error (req : Req) (s : State) :
  match runLocked h lib req s with
  | (_, s', None) => Tweets_ (tdata s') = None /\
                     exists e, In (LogError e) (log s')
  | (_, s', Some t) => Tweets_ (tdata s') = Some t
  end.
Proof.
  unfold runLocked. destruct (GetLatestTweetID h s) as [s1 [id err]].
  set (req1 := match err with None => SetSinceTweetID id req | Some _ => req end).
  pose proof (Get_error_nil h (Encode lib) (validURL lib) (Do lib) (jsonValid lib)
                (jsonDecode lib) req1 s1) as Hnil.
  destruct (Get h (Encode lib) (validURL lib) (Do lib) (jsonValid lib) (jsonDecode lib)
              req1 s1) as [[s2 req2] [[t|] [e|]]]; simpl in *; try contradiction.
  - reflexivity.
  - split; [reflexivity|]. exists e.
    destruct (StoreLatestTweetID_log req2 (logLn (LogError e) s2)) as [l ->].
    simpl. apply in_or_app. left. apply in_or_app. right. left. reflexivity.
Qed.

(** A tick whose fetch fails makes [run] panic, and the loop with it. *)
Lemma run_fetch_error (notifierObj : option NotifierObj) (req : Req) (s : State)
    (req2 : Req) (s' : State) (ws : list wakeup) :
  runLocked h lib req s = (req2, s', None) ->
  run h lib notifierObj req s = Panicked s' nilDereference /\
  pollLoop h lib notifierObj (TimerFired :: ws) req s = Panicked s' nilDereference.
Proof.
  intros Hl. assert (Hr : run h lib notifierObj req s = Panicked s' nilDereference).
  { unfold run. rewrite Hl. reflexivity. }
  split; [exact Hr|]. simpl. rewrite Hr. reflexivity.
Qed.

Lemma runLocked_outbox (req : Req) (s : State) :
  outbox (snd (fst (runLocked h lib req s))) = outbox s.
Proof.
  unfold runLocked.
  pose proof (GetLatestTweetID_outbox h s) as Ho1.
  destruct (GetLatestTweetID h s) as [s1 [id err]]. simpl in Ho1.
  set (req1 := match err with None => SetSinceTweetID id req | Some _ => req end).
  pose proof (Get_outbox h lib req1 s1) as Ho2.
  destruct (Get h (Encode lib) (validURL lib) (Do lib) (jsonValid lib) (jsonDecode lib)
              req1 s1) as [[s2 req2] [tw err2]].
  simpl in *. rewrite StoreLatestTweetID_outbox.
  destruct err2; simpl; congruence.
Qed.

Lemma forward_sink (o : NotifierObj) (data : list (gmap string string)) (s : State) :
  exists s',
    forward lib (Some o) data s = Returned s' /\
    outbox s' = outbox s ++
                map (fun msg => (notifyArgs o, msg)) (omap (fun tweet => tweet !! "text") data).
Proof.
  revert s. induction data as [|tweet rest IH]; intros s; simpl.
  - exists s. split; [reflexivity|]. symmetry. apply app_nil_r.
  - destruct (tweet !! "text") as [msg|]; simpl; [|apply IH].
    destruct (IH (fst (Notify (PostMessage lib) (notifier o) msg (notifyArgs o) s)))
      as (s' & Hf & Ho).
    exists s'. split; [exact Hf|]. rewrite Ho.
    unfold Notify. destruct (PostMessage lib _ _ _); simpl;
      rewrite <- app_assoc; reflexivity.
Qed.

Lemma forward_no_sink (data : list (gmap string string)) (s : State) :
  forward lib None data s =
  if existsb hasText data then Panicked s nilDereference else Returned s.
Proof.
  induction data as [|tweet rest IH]; simpl; [reflexivity|].
  unfold hasText at 1.
  destruct (tweet !! "text") as [msg|] eqn:Ht.
  - rewrite bool_decide_eq_true_2 by eauto. reflexivity.
  - rewrite bool_decide_eq_false_2 by (intros [x Hx]; discriminate). exact IH.
Qed.

End LoopFacts.


(** C6.  When the fetch of a tick has returned a result, [run] returns,
    and what it has handed to the notifier is, in the order of the
    result list, the [text] of every record that has one, each with the
    configured arguments; a record without a [text] field adds nothing. *)
Theorem records_with_text_reach_sink
    (h : Host) (lib : Library) (o : NotifierObj) (req : Req) (s : State)
    (req2 : Req) (s2 : State) (t : Tweets) :
  runLocked h lib req s = (req2, s2, Some t) ->
  exists s',
    run h lib (Some o) req s = Returned (req2, s') /\
    outbox s' = outbox s ++
                map (fun msg => (notifyArgs o, msg))
                    (omap (fun tweet => tweet !! "text") (Data t)).
Proof.
  intros Hl. unfold run. rewrite Hl.
  destruct (forward_sink lib o (Data t) s2) as (s' & Hf & Hs').
  exists s'. rewrite Hf. split; [reflexivity|].
  rewrite Hs'. pose proof (runLocked_outbox h lib req s) as Ho.
  rewrite Hl in Ho. simpl in Ho. rewrite Ho. reflexivity.
Qed.

(** A tick that fetches a record without a text and two with one: the
    notifier gets [Oil rallies], then [Gold slips]. *)
Lemma records_with_text_reach_sink_witness :
  let lib := demoLibrary 200 bodyTweets in
  let o := mkNotifierObj (mkSlack "xoxb") (mkSlackArgs "C042" None) in
  let req := NewReq [WithUsers ["markets"]; WithKeywords (quoteTail lib) ["oil"]] in
  exists req2 s2 s',
    runLocked demoHost lib req freshState = (req2, s2, Some demoTweets) /\
    run demoHost lib (Some o) req freshState = Returned (req2, s') /\
    outbox s' = [(mkSlackArgs "C042" None, "Oil rallies");
                 (mkSlackArgs "C042" None, "Gold slips")].
Proof.
  intros lib o req.
  destruct (runLocked demoHost lib req freshState) as [[req2 s2] tw] eqn:Hl.
  assert (Htw : tw = Some demoTweets).
  { apply (f_equal snd) in Hl. simpl in Hl. rewrite <- Hl. vm_compute. reflexivity. }
  subst tw.
  destruct (records_with_text_reach_sink demoHost lib o req freshState req2 s2
              demoTweets Hl) as (s' & Hr & Ho).
  exists req2, s2, s'. split; [reflexivity|]. split; [exact Hr|]. exact Ho.
Defined.

(** C2 (what the code does).  A tick whose fetch ends in a transport
    error does not reach the next tick: [run] logs the error and then
    panics on the nil result, and so does the loop, whatever wakeups
    would have followed. *)
Theorem failed_fetch_ends_the_loop
    (h : Host) (lib : Library) (token msg : string)
    (notifierObj : option NotifierObj) (req : Req) (s : State) (ws : list wakeup) :
  exists s',
    run (withBearerToken token h) (failingTransport msg lib) notifierObj req s
    = Panicked s' nilDereference /\
    In (LogError (errTransport msg)) (log s') /\
    pollLoop (withBearerToken token h) (failingTransport msg lib) notifierObj
             (TimerFired :: ws) req s
    = Panicked s' nilDereference.
Proof.
  destruct (runLocked (withBearerToken token h) (failingTransport msg lib) req s)
    as [[req2 s'] tw] eqn:Hl.
  assert (Htw : tw = None /\ In (LogError (errTransport msg)) (log s')).
  { revert Hl. unfold runLocked.
    destruct (GetLatestTweetID (withBearerToken token h) s) as [s1 [id err]].
    unfold Get. simpl. intros [= <- <- <-]. split; [reflexivity|].
    match goal with
    | |- context [StoreLatestTweetID ?h0 ?r0 ?s0] =>
        destruct (StoreLatestTweetID_log h0 r0 s0) as [l Hlog]
    end.
    simpl. rewrite Hlog. simpl.
    apply in_or_app. left. apply in_or_app. right. left. reflexivity. }
  destruct Htw as [-> Hin].
  destruct (run_fetch_error (withBearerToken token h) (failingTransport msg lib)
              notifierObj req s req2 s' ws Hl) as [Hr Hp].
  exists s'. split; [exact Hr|]. split; [exact Hin|exact Hp].
Qed.

(** A start command without a Slack channel is accepted and hands a nil
    notifier to its goroutine. *)
Lemma startHandler_no_channel (h : Host) (lib : Library) (req : Request) (s : State) :
  Method req = "POST" ->
  Started (tdata s) = false ->
  default "" (decodeKeyVal lib (reqBody req) !! "slackChannelID") = "" ->
  exists s1 ctx,
    startHandler h lib req s
    = Returned (s1, httpWrite "Success: Started polling tweets", Some ctx) /\
    keyNotifierObj ctx = None /\
    Cancel (tdata s1) = Some (ctxID ctx) /\
    Started (tdata s1) = false.
Proof.
  intros Hm Hs Hc. unfold startHandler. rewrite Hm, Hs, Hc. simpl.
  eexists _, _. split; [reflexivity|]. simpl. auto.
Qed.

(** C3 (what the code does).  Without a sink the loop over the fetched
    records panics as soon as a record has a [text] field, and returns
    only when none has.  So a start command without a Slack channel is
    accepted, its goroutine gets a nil notifier, and the goroutine
    panics on the first fetched tweet. *)
Theorem start_without_sink_panics
    (lib : Library) (data : list (gmap string string)) (s : State) :
  forward lib None data s
  = (if existsb hasText data then Panicked s nilDereference else Returned s) /\
  exists s1 reply ctx s2,
    startHandler demoHost (demoLibrary 200 bodyTweets) (postRequest bodyOil)
                 (bootState demoHost "localhost" 3000)
    = Returned (s1, reply, Some ctx) /\
    replyBody reply = "Success: Started polling tweets" /\
    keyNotifierObj ctx = None /\
    forall ws, start demoHost (demoLibrary 200 bodyTweets) ctx ws s1
               = Panicked s2 nilDereference.
Proof.
  split; [apply forward_no_sink|].
  eexists _, _, _, _. split; [vm_compute; reflexivity|].
  split; [reflexivity|]. split; [reflexivity|].
  intros ws. vm_compute. reflexivity.
Qed.

(** ** The handlers *)

(** Once the goroutine has set [Started], a start command is answered
    with status 400 and [Subscription already started]; it spawns nothing
    and leaves the whole state as it was: [tdata] with its flag and cancel
    function, and the store with its cursor. *)
Lemma startHandler_rejects_when_flag_set
    (h : Host) (lib : Library) (req : Request) (s : State) :
  Method req = "POST" ->
  Started (tdata s) = true ->
  startHandler h lib req s
  = Returned (s, mkReply corsHeader 400 ("400 Subscription already started" +:+ newline),
              None).
Proof.
  intros Hm Hs. unfold startHandler. rewrite Hm, Hs. reflexivity.
Qed.

(** C7 (what the code does).  [startHandler] checks [Started] under the
    lock but does not set it: the goroutine does, in [start], outside
    the lock.  So a start command accepted from any idle state leaves
    [Started] false with a loop spawned, and a second start command
    handled before that goroutine has run is not rejected: it is answered
    with success, spawns a second loop on another context and replaces
    the cancel function, which no longer reaches the first loop.  Only
    once the flag is set is the command rejected with the state left as
    it was. *)
Theorem start_while_running_is_accepted (h : Host) (s : State) :
  exists s1 ctx1 s2 ctx2,
    startHandler h (demoLibrary 200 bodyTweets) (postRequest bodyOil) (setStarted false s)
    = Returned (s1, httpWrite "Success: Started polling tweets", Some ctx1) /\
    Started (tdata s1) = false /\
    Cancel (tdata s1) = Some (ctxID ctx1) /\
    startHandler h (demoLibrary 200 bodyTweets) (postRequest bodyOil) s1
    = Returned (s2, httpWrite "Success: Started polling tweets", Some ctx2) /\
    ctxID ctx2 <> ctxID ctx1 /\
    Cancel (tdata s2) = Some (ctxID ctx2) /\
    Cancel (tdata s2) <> Cancel (tdata s1) /\
    startHandler h (demoLibrary 200 bodyTweets) (postRequest bodyOil) (setStarted true s1)
    = Returned (setStarted true s1,
                mkReply corsHeader 400 ("400 Subscription already started" +:+ newline),
                None).
Proof.
  eexists _, _, _, _. split; [reflexivity|]. split; [reflexivity|].
  split; [reflexivity|]. split; [reflexivity|]. simpl.
  split; [lia|]. split; [reflexivity|]. split; [intros [= He]; lia|].
  apply startHandler_rejects_when_flag_set; reflexivity.
Qed.

(** C8 (what the code does).  A stop command that finds no cancel
    function panics on the nil pointer, before anything is written to
    the reply; this is so in the state [main] starts from. *)
Theorem stop_without_start_panics (data : string) (s : State) (h : Host)
    (host : string) (port : Z) :
  stopHandler (postRequest data) (setCancel None s)
  = Panicked (setCancel None s) nilDereference /\
  stopHandler (postRequest data) (bootState h host port)
  = Panicked (bootState h host port) nilDereference.
Proof.
  split; [reflexivity|].
  unfold stopHandler, bootState, NewTemplateData.
  destruct (GetLatestSearchTerms h freshState) as [s1 [st e]]. reflexivity.
Qed.

(** * Further properties *)

(** ** The store: reads, round trips and failures *)

Section StoreMore.
Variable h : Host.

Lemma openStore_unreachable (s : State) :
  storeReachable h s = false ->
  exists s1 e l, openStore h s = (s1, Some e) /\ db s1 = db s /\
                 tdata s1 = tdata s /\ outbox s1 = outbox s /\
                 log s1 = log s ++ l ++ [LogError e].
Proof.
  unfold storeReachable, openStore.
  destruct (homedir_Dir h); [|intros _; eexists _, _, []; repeat split].
  destruct (dir_exists s) eqn:Hd, (mkdir_ok h), (open_ok h); simpl;
    rewrite ?Hd; simpl; try discriminate; intros _;
    try (eexists _, _, []; repeat split; fail).
  all: eexists _, _, [_]; repeat split; simpl; rewrite <- app_assoc; reflexivity.
Qed.

(** A store that can be opened is opened without a trace in the log. *)
Lemma openStore_frame (s : State) :
  storeReachable h s = true ->
  exists s1, openStore h s = (s1, None) /\ db s1 = db s /\ log s1 = log s /\
             tdata s1 = tdata s /\ outbox s1 = outbox s /\ calls s1 = calls s /\
             storeReachable h s1 = true.
Proof.
  intros Hr. unfold storeReachable, openStore in *.
  destruct (homedir_Dir h); [|discriminate].
  destruct (dir_exists s) eqn:Hd, (mkdir_ok h), (open_ok h); simpl in *;
    rewrite ?Hd; simpl; try discriminate;
    eexists; repeat split; simpl; rewrite ?Hd; reflexivity.
Qed.

Lemma GetLatestTweetID_spec (s : State) :
  storeReachable h s = true ->
  db (fst (GetLatestTweetID h s)) = db s /\
  storeReachable h (fst (GetLatestTweetID h s)) = true /\
  match cursor s with
  | Some c => snd (GetLatestTweetID h s) = (c, None) /\
              log (fst (GetLatestTweetID h s)) = log s
  | None => exists e, snd (GetLatestTweetID h s) = ("", Some e)
  end.
Proof.
  intros Hr. destruct (openStore_frame s Hr) as (s1 & Ho & Hdb & Hlog & _ & _ & _ & Hr1).
  unfold GetLatestTweetID, cursor. rewrite Ho, <- Hdb.
  destruct (db s1 !! "meta") as [b|]; simpl.
  - destruct (b !! "newest"); simpl; eauto.
  - split; [reflexivity|]. split; [exact Hr1|]. eauto.
Qed.

Lemma GetLatestSearchTerms_spec (s : State) :
  storeReachable h s = true ->
  db (fst (GetLatestSearchTerms h s)) = db s /\
  match storedTerms s with
  | Some joined => snd (GetLatestSearchTerms h s) = (Split joined comma, None)
  | None => exists e, snd (GetLatestSearchTerms h s) = ([], Some e)
  end.
Proof.
  intros Hr. destruct (openStore_frame s Hr) as (s1 & Ho & Hdb & _).
  unfold GetLatestSearchTerms, storedTerms. rewrite Ho, <- Hdb.
  destruct (db s1 !! "meta") as [b|]; simpl.
  - destruct (b !! "keywords"); simpl; eauto.
  - eauto.
Qed.

Lemma storedTerms_Put (v : string) (d : gmap string (gmap string string)) :
  Put "meta" "keywords" v d !! "meta" ≫= (fun b => b !! "keywords") = Some v.
Proof. unfold Put. rewrite lookup_insert_eq. simpl. apply lookup_insert_eq. Qed.

Lemma StoreLatestSearchTerms_spec (r : Req) (s : State) :
  storeReachable h s = true ->
  snd (StoreLatestSearchTerms h r s) = None /\
  storedTerms (fst (StoreLatestSearchTerms h r s)) = Some (Join (keywordFilter r) ",") /\
  storeReachable h (fst (StoreLatestSearchTerms h r s)) = true /\
  tdata (fst (StoreLatestSearchTerms h r s)) = tdata s /\
  log (fst (StoreLatestSearchTerms h r s)) = log s.
Proof.
  intros Hr. destruct (openStore_frame s Hr) as (s1 & Ho & Hdb & Hl & Ht & _ & _ & Hr1).
  unfold StoreLatestSearchTerms, storedTerms, Update. rewrite Ho.
  destruct (CreateBucketIfNotExists "meta" (db s1)) as [d1 b]. simpl.
  split; [reflexivity|]. split; [apply storedTerms_Put|].
  split; [exact Hr1|]. split; assumption.
Qed.

End StoreMore.

(** X1.  Reading the cursor never writes: on a store that can be opened
    [GetLatestTweetID] leaves the bolt file as it is, returns the stored
    cursor with a nil error and logs nothing when there is one, and returns
    the empty string with an error when there is none. *)
Theorem GetLatestTweetID_reads_cursor (h : Host) (s : State) :
  storeReachable h s = true ->
  db (fst (GetLatestTweetID h s)) = db s /\
  (forall c, cursor s = Some c ->
     snd (GetLatestTweetID h s) = (c, None) /\
     log (fst (GetLatestTweetID h s)) = log s) /\
  (cursor s = None ->
     fst (snd (GetLatestTweetID h s)) = "" /\
     snd (snd (GetLatestTweetID h s)) <> None).
Proof.
  intros Hr. destruct (GetLatestTweetID_spec h s Hr) as (Hdb & _ & Hc).
  split; [exact Hdb|]. split.
  - intros c Hs. rewrite Hs in Hc. exact Hc.
  - intros Hs. rewrite Hs in Hc. destruct Hc as [e ->]. simpl. split; [reflexivity|discriminate].
Qed.

Lemma GetLatestTweetID_reads_cursor_witness :
  let s := storeAll demoHost [withNewestID "150" (NewReq [])] freshState in
  storeReachable demoHost s = true /\
  snd (GetLatestTweetID demoHost s) = ("150", None).
Proof.
  intros s. split; [reflexivity|].
  exact (proj1 (proj1 (proj2 (GetLatestTweetID_reads_cursor demoHost s eq_refl))
                  "150" eq_refl)).
Defined.

(** X2.  Write then read: after [StoreLatestTweetID] with a non-empty
    newest id on a store that can be opened, [GetLatestTweetID] returns
    a cursor with a nil error; that cursor is at least the id written,
    and it is either that id or the cursor that was there before. *)
Theorem cursor_round_trip (h : Host) (r : Req) (s : State) :
  storeReachable h s = true ->
  newestOf r <> "" ->
  exists c,
    snd (GetLatestTweetID h (fst (StoreLatestTweetID h r s))) = (c, None) /\
    String.leb (newestOf r) c = true /\
    (c = newestOf r \/ cursor s = Some c).
Proof.
  intros Hr Hne.
  destruct (StoreLatestTweetID_cursor h r s Hr) as [Hc Hr'].
  destruct (advance_covers (cursor s) (newestOf r) Hne) as (c & Ha & Hle).
  destruct (GetLatestTweetID_spec h _ Hr') as (_ & _ & Hg).
  rewrite Hc, Ha in Hg. exists c. split; [apply Hg|]. split; [exact Hle|].
  unfold advance in Ha. destruct (String.eqb_spec (newestOf r) ""); [contradiction|].
  destruct (cursor s) as [p|]; [destruct (String.leb (newestOf r) p)|];
    injection Ha as <-; auto.
Qed.

Lemma cursor_round_trip_witness :
  storeReachable demoHost freshState = true /\
  newestOf (withNewestID "150" (NewReq [])) <> "" /\
  exists c,
    snd (GetLatestTweetID demoHost
           (fst (StoreLatestTweetID demoHost (withNewestID "150" (NewReq [])) freshState)))
    = (c, None) /\
    String.leb (newestOf (withNewestID "150" (NewReq []))) c = true /\
    (c = newestOf (withNewestID "150" (NewReq [])) \/ cursor freshState = Some c).
Proof.
  split; [reflexivity|]. split; [discriminate|].
  exact (cursor_round_trip demoHost (withNewestID "150" (NewReq [])) freshState
           eq_refl ltac:(discriminate)).
Defined.

(** ** Split and Join *)

Lemma Split_no_separator (w : string) (c : ascii) :
  hasByte c w = false -> Split w c = [w].
Proof.
  induction w as [|d w IH]; simpl; [reflexivity|].
  intros [Hd Hw]%orb_false_iff. rewrite Hd, (IH Hw). reflexivity.
Qed.

Lemma Split_append_separator (w s : string) (c : ascii) :
  hasByte c w = false -> Split (w +:+ String c s) c = w :: Split s c.
Proof.
  induction w as [|d w IH]; intros Hw.
  - change (Split (String c s) c = "" :: Split s c). simpl.
    rewrite Ascii.eqb_refl. reflexivity.
  - simpl in Hw. apply orb_false_iff in Hw as [Hd Hw].
    change (Split (String d (w +:+ String c s)) c = String d w :: Split s c).
    simpl. rewrite Hd, (IH Hw). reflexivity.
Qed.

(** Joining with commas and splitting at commas gives the list back, when
    it is not empty and no element holds a comma. *)
Lemma Split_Join_comma (l : list string) :
  l <> [] -> Forall commaFree l -> Split (Join l ",") comma = l.
Proof.
  induction l as [|x rest IH]; [contradiction|].
  intros _ Hall. apply Forall_cons in Hall as [Hx Hrest].
  destruct rest as [|y rest].
  - simpl. apply Split_no_separator. exact Hx.
  - change (Join (x :: y :: rest) ",") with (x +:+ String comma (Join (y :: rest) ",")).
    rewrite (Split_append_separator _ _ _ Hx). f_equal.
    apply IH; [discriminate|exact Hrest].
Qed.

(** X3.  Write then read of the search terms: on a store that can be
    opened, [StoreLatestSearchTerms] returns nil and [GetLatestSearchTerms]
    then returns, with a nil error, the keyword filter joined by commas
    and split at commas.  That is the keyword filter itself when it is not
    empty and no keyword holds a comma; an empty filter comes back as the
    list of one empty string. *)
Theorem search_terms_round_trip (h : Host) (r : Req) (s : State) :
  storeReachable h s = true ->
  snd (StoreLatestSearchTerms h r s) = None /\
  snd (GetLatestSearchTerms h (fst (StoreLatestSearchTerms h r s)))
  = (Split (Join (keywordFilter r) ",") comma, None) /\
  (keywordFilter r <> [] -> Forall commaFree (keywordFilter r) ->
   Split (Join (keywordFilter r) ",") comma = keywordFilter r) /\
  (keywordFilter r = [] -> Split (Join (keywordFilter r) ",") comma = [""]).
Proof.
  intros Hr.
  destruct (StoreLatestSearchTerms_spec h r s Hr) as (He & Hst & Hr' & _).
  destruct (GetLatestSearchTerms_spec h _ Hr') as (_ & Hg). rewrite Hst in Hg.
  split; [exact He|]. split; [exact Hg|]. split.
  - apply Split_Join_comma.
  - intros ->. reflexivity.
Qed.

Lemma search_terms_round_trip_witness :
  let r := NewReq [WithUsers ["markets"];
                   WithKeywords (fun s => s) ["oil"; "central bank"]] in
  storeReachable demoHost freshState = true /\
  snd (GetLatestSearchTerms demoHost (fst (StoreLatestSearchTerms demoHost r freshState)))
  = (["oil"; inQuotes "central bank"], None).
Proof.
  intros r. split; [reflexivity|].
  exact (proj1 (proj2 (search_terms_round_trip demoHost r freshState eq_refl))).
Defined.

(** X4.  When the store cannot be opened, because the home directory is
    unknown, or the directory is missing and cannot be made, or
    [bolt.Open] fails, each of the four store functions returns an error,
    the readers with their zero value, and the bolt file is not touched. *)
Theorem unreachable_store_fails_without_writing (h : Host) (r : Req) (s : State) :
  storeReachable h s = false ->
  (snd (StoreLatestTweetID h r s) <> None /\
   db (fst (StoreLatestTweetID h r s)) = db s) /\
  (snd (StoreLatestSearchTerms h r s) <> None /\
   db (fst (StoreLatestSearchTerms h r s)) = db s) /\
  (exists e, snd (GetLatestTweetID h s) = ("", Some e) /\
             db (fst (GetLatestTweetID h s)) = db s) /\
  (exists e, snd (GetLatestSearchTerms h s) = ([], Some e) /\
             db (fst (GetLatestSearchTerms h s)) = db s).
Proof.
  intros Hu. destruct (openStore_unreachable h s Hu) as (s1 & e & l & Ho & Hdb & _).
  unfold StoreLatestTweetID, StoreLatestSearchTerms, GetLatestTweetID,
    GetLatestSearchTerms. rewrite Ho. simpl.
  split; [split; [discriminate|exact Hdb]|].
  split; [split; [discriminate|exact Hdb]|].
  split; exists e; split; [reflexivity|exact Hdb|reflexivity|exact Hdb].
Qed.

Lemma unreachable_store_fails_without_writing_witness :
  let h := mkHost (Some "/home/user") false true (Some "bearer") None in
  let r := withNewestID "150" (NewReq []) in
  storeReachable h freshState = false /\
  snd (StoreLatestTweetID h r freshState) <> None /\
  db (fst (StoreLatestTweetID h r freshState)) = db freshState.
Proof.
  intros h r. split; [reflexivity|].
  exact (proj1 (unreachable_store_fails_without_writing h r freshState eq_refl)).
Defined.

Lemma Put_other_key (k k' v : string) (d : gmap string (gmap string string)) :
  k <> k' ->
  Put "meta" k v d !! "meta" ≫= (fun b => b !! k')
  = d !! "meta" ≫= (fun b => b !! k').
Proof.
  intros Hne. unfold Put. rewrite lookup_insert_eq. simpl.
  rewrite lookup_insert_ne by exact Hne.
  destruct (d !! "meta"); simpl; [reflexivity|apply lookup_empty].
Qed.

Lemma CreateBucketIfNotExists_lookup (k : string) (d : gmap string (gmap string string)) :
  fst (CreateBucketIfNotExists "meta" d) !! "meta" ≫= (fun b => b !! k)
  = d !! "meta" ≫= (fun b => b !! k) /\
  snd (CreateBucketIfNotExists "meta" d) !! k = d !! "meta" ≫= (fun b => b !! k).
Proof.
  unfold CreateBucketIfNotExists. destruct (d !! "meta") as [b|] eqn:Hb; simpl.
  - rewrite Hb. split; reflexivity.
  - rewrite lookup_insert_eq. simpl. rewrite lookup_empty. split; reflexivity.
Qed.

(** X5.  The two entries of the store do not disturb each other: storing
    the search terms leaves the cursor as it is, and storing a newest id
    leaves the search terms as they are, whether or not the store can be
    opened. *)
Theorem store_entries_independent (h : Host) (r : Req) (s : State) :
  cursor (fst (StoreLatestSearchTerms h r s)) = cursor s /\
  storedTerms (fst (StoreLatestTweetID h r s)) = storedTerms s.
Proof.
  destruct (storeReachable h s) eqn:Hr.
  - destruct (openStore_frame h s Hr) as (s1 & Ho & Hdb & _).
    unfold StoreLatestSearchTerms, StoreLatestTweetID, cursor, storedTerms, Update.
    rewrite Ho, <- Hdb. split.
    + pose proof (CreateBucketIfNotExists_lookup "newest" (db s1)) as [Hc _].
      destruct (CreateBucketIfNotExists "meta" (db s1)) as [d1 b]. simpl in *.
      rewrite Put_other_key by discriminate. exact Hc.
    + destruct (String.eqb (NewestID (meta (tweets r))) ""); simpl; [reflexivity|].
      pose proof (CreateBucketIfNotExists_lookup "keywords" (db s1)) as [Hc _].
      destruct (CreateBucketIfNotExists "meta" (db s1)) as [d1 b]. simpl in *.
      destruct (b !! "newest") as [p|];
        [destruct (String.leb (NewestID (meta (tweets r))) p)|]; simpl;
        rewrite ?Put_other_key by discriminate; exact Hc.
  - destruct (openStore_unreachable h s Hr) as (s1 & e & l & Ho & Hdb & _).
    unfold StoreLatestSearchTerms, StoreLatestTweetID, cursor, storedTerms.
    rewrite Ho. simpl. rewrite Hdb. split; reflexivity.
Qed.

(** ** Requests and their options *)

Lemma parseQuery_set (r : Req) :
  parseQuery r =
  setQueryParam "query"
    (("(" +:+ Join (keywordFilter r) " OR " +:+ ")") +:+
     (if (0 <? length (usersFilter r))%nat
      then "(from:" +:+ Join (usersFilter r) " OR " +:+ ")" else "")) r.
Proof.
  unfold parseQuery.
  replace ((0 <? String.length ("(" +:+ Join (keywordFilter r) " OR " +:+ ")"))%nat)
    with true by reflexivity.
  rewrite orb_true_r. reflexivity.
Qed.

Lemma queryParam_set_other (k k' v : string) (r : Req) :
  k <> k' -> queryParam k' (setQueryParam k v r) = queryParam k' r.
Proof.
  intros Hne. unfold queryParam, setQueryParam. simpl.
  rewrite lookup_insert_ne by exact Hne. reflexivity.
Qed.

Lemma queryParam_set_same (k v : string) (r : Req) :
  queryParam k (setQueryParam k v r) = Some v.
Proof. unfold queryParam, setQueryParam. simpl. rewrite lookup_insert_eq. reflexivity. Qed.

(** X6.  Building the query again changes nothing: [parseQuery] applied to
    its own result gives that result, so the polls of one request never
    pile the query up; and it touches no parameter but [query], neither
    filter, nor the endpoint, nor the stored result. *)
Theorem parseQuery_idempotent (r : Req) :
  parseQuery (parseQuery r) = parseQuery r /\
  (forall k, k <> "query" -> queryParam k (parseQuery r) = queryParam k r) /\
  usersFilter (parseQuery r) = usersFilter r /\
  keywordFilter (parseQuery r) = keywordFilter r /\
  endpoint (parseQuery r) = endpoint r /\
  schemeHost (parseQuery r) = schemeHost r /\
  tweets (parseQuery r) = tweets r.
Proof.
  split.
  - rewrite (parseQuery_set (parseQuery r)). rewrite !(parseQuery_set r). simpl.
    unfold setQueryParam. simpl. rewrite insert_insert_eq. reflexivity.
  - rewrite parseQuery_set. split; [|repeat split].
    intros k Hk. apply queryParam_set_other. congruence.
Qed.

Section Options.
Variable qt : string -> string.

Lemma packageOption_invariant (opt : Req -> Req) (r : Req) :
  packageOption qt opt -> optionInvariant r -> optionInvariant (opt r).
Proof.
  intros Ho (Hh & Hf & Hq & Ht & Hm). unfold optionInvariant.
  destruct Ho; simpl; try (repeat split; assumption).
  - unfold WithSinceTweetID. rewrite !queryParam_set_other by discriminate.
    repeat split; assumption.
  - unfold WithMaxResults. rewrite !queryParam_set_other by discriminate.
    rewrite queryParam_set_same. repeat split; eauto.
Qed.

Lemma fold_options_invariant (opts : list (Req -> Req)) (r : Req) :
  Forall (packageOption qt) opts -> optionInvariant r ->
  optionInvariant (fold_left (fun req opt => opt req) opts r).
Proof.
  revert r. induction opts as [|opt opts IH]; intros r Hall Hr; simpl; [exact Hr|].
  apply Forall_cons in Hall as [Ho Hall].
  apply IH; [exact Hall|]. apply packageOption_invariant; assumption.
Qed.

End Options.

(** X7.  Whatever exported options a request is built with, in whatever
    order, it goes to [https://api.twitter.com], asks for the fields
    [created_at,text], carries some [max_results], holds the zero result,
    and has no [query] yet: the query is only set when [Get] runs. *)
Theorem NewReq_option_invariants (qt : string -> string) (opts : list (Req -> Req)) :
  Forall (packageOption qt) opts ->
  schemeHost (NewReq opts) = "https://api.twitter.com" /\
  queryParam "tweet.fields" (NewReq opts) = Some "created_at,text" /\
  queryParam "query" (NewReq opts) = None /\
  tweets (NewReq opts) = zeroTweets /\
  is_Some (queryParam "max_results" (NewReq opts)).
Proof.
  intros Hall. apply (fold_options_invariant qt); [exact Hall|].
  repeat split. eexists. reflexivity.
Qed.

Lemma NewReq_option_invariants_witness :
  let opts := [WithMaxResults 50; WithUsers ["markets"];
               WithKeywords (fun s => s) ["oil"]; WithSinceTweetID 150;
               WithEndpoint "/2/tweets/search/all"] in
  Forall (packageOption (fun s => s)) opts /\
  schemeHost (NewReq opts) = "https://api.twitter.com" /\
  queryParam "tweet.fields" (NewReq opts) = Some "created_at,text" /\
  queryParam "query" (NewReq opts) = None /\
  tweets (NewReq opts) = zeroTweets /\
  is_Some (queryParam "max_results" (NewReq opts)).
Proof.
  intros opts.
  refine ((fun H => conj H (NewReq_option_invariants (fun s => s) opts H)) _).
  repeat constructor.
Defined.

(** ** The fetch, in every case *)


(** ** One tick of the loop *)

Lemma storeReachable_dir (h : Host) (s s' : State) :
  dir_exists s' = dir_exists s -> storeReachable h s' = storeReachable h s.
Proof. intros Hd. unfold storeReachable. rewrite Hd. reflexivity. Qed.

(** What the store functions never touch. *)
Lemma openStore_untouched (h : Host) (s : State) :
  db (fst (openStore h s)) = db s /\
  tdata (fst (openStore h s)) = tdata s /\
  calls (fst (openStore h s)) = calls s.
Proof. unfold openStore. break_matches; repeat split. Qed.

Lemma GetLatestTweetID_untouched (h : Host) (s : State) :
  tdata (fst (GetLatestTweetID h s)) = tdata s /\
  calls (fst (GetLatestTweetID h s)) = calls s.
Proof.
  unfold GetLatestTweetID. destruct (openStore_untouched h s) as (_ & Ht & Hc).
  destruct (openStore h s) as [s1 [e|]]; simpl in *; [auto|].
  break_matches; auto.
Qed.

Lemma StoreLatestTweetID_untouched (h : Host) (r : Req) (s : State) :
  tdata (fst (StoreLatestTweetID h r s)) = tdata s /\
  calls (fst (StoreLatestTweetID h r s)) = calls s.
Proof.
  unfold StoreLatestTweetID, Update. destruct (openStore_untouched h s) as (_ & Ht & Hc).
  destruct (openStore h s) as [s1 [e|]]; simpl in *; [auto|].
  break_matches; auto.
Qed.

Section TickFacts.
Variable h : Host.
Variable lib : Library.

(** What [Get] leaves alone, and how its two results go together. *)
Lemma Get_frame (r : Req) (s : State) :
  let res := Get h (Encode lib) (validURL lib) (Do lib) (jsonValid lib)
                 (jsonDecode lib) r s in
  db (fst (fst res)) = db s /\
  dir_exists (fst (fst res)) = dir_exists s /\
  tdata (fst (fst res)) = tdata s /\
  keywordFilter (snd (fst res)) = keywordFilter r /\
  (forall k, k <> "query" -> queryParam k (snd (fst res)) = queryParam k r) /\
  match snd res with
  | (Some t, None) => tweets (snd (fst res)) = t /\ log (fst (fst res)) = log s
  | (None, Some _) => tweets (snd (fst res)) = tweets r
  | _ => False
  end.
Proof.
  pose proof (parseQuery_set r) as Hp.
  assert (Hq : forall k, k <> "query" -> queryParam k (parseQuery r) = queryParam k r).
  { intros k Hk. rewrite Hp. apply queryParam_set_other. congruence. }
  assert (Hk : keywordFilter (parseQuery r) = keywordFilter r) by (rewrite Hp; reflexivity).
  pose proof (tweets_parseQuery r) as Ht.
  unfold Get. destruct (TWITTER_BEARER_TOKEN h) as [token|]; simpl;
    [|repeat split; auto].
  destruct (validURL lib (urlString (Encode lib) (parseQuery r))); simpl;
    [|repeat split; auto].
  destruct (Do lib (calls s) (urlString (Encode lib) (parseQuery r)) token); simpl;
    repeat split; auto.
Qed.

(** The tick, step by step, on a store that can be opened. *)
Lemma runLocked_spec (req : Req) (s : State) :
  storeReachable h s = true ->
  cursor (snd (fst (runLocked h lib req s)))
  = advance (cursor s) (newestOf (fst (fst (runLocked h lib req s)))) /\
  storeReachable h (snd (fst (runLocked h lib req s))) = true /\
  keywordFilter (fst (fst (runLocked h lib req s))) = keywordFilter req /\
  queryParam "since_id" (fst (fst (runLocked h lib req s)))
  = match cursor s with
    | Some c => Some c
    | None => queryParam "since_id" req
    end /\
  match snd (runLocked h lib req s) with
  | Some t => newestOf (fst (fst (runLocked h lib req s))) = NewestID (meta t)
  | None => newestOf (fst (fst (runLocked h lib req s))) = newestOf req
  end.
Proof.
  intros Hr. unfold runLocked.
  destruct (GetLatestTweetID_spec h s Hr) as (Hdb1 & Hr1 & Hc1).
  destruct (GetLatestTweetID h s) as [s1 [id err]]. simpl in Hdb1, Hr1, Hc1.
  set (req1 := match err with None => SetSinceTweetID id req | Some _ => req end).
  assert (Hreq1 : keywordFilter req1 = keywordFilter req /\
                  tweets req1 = tweets req /\
                  queryParam "since_id" req1
                  = match cursor s with
                    | Some c => Some c
                    | None => queryParam "since_id" req
                    end).
  { subst req1. destruct (cursor s) as [c|].
    - destruct Hc1 as [[= -> ->] _]. repeat split. apply queryParam_set_same.
    - destruct Hc1 as [e [= -> ->]]. repeat split. }
  destruct Hreq1 as (Hkw1 & Htw1 & Hsince1).
  pose proof (Get_frame req1 s1) as HG. simpl in HG.
  destruct (Get h (Encode lib) (validURL lib) (Do lib) (jsonValid lib) (jsonDecode lib)
              req1 s1) as [[s2 req2] [tw err2]].
  simpl in HG. destruct HG as (Hdb2 & Hdir2 & _ & Hkw2 & Hq2 & Hres).
  set (s3 := match err2 with Some e => logLn (LogError e) s2 | None => s2 end).
  assert (Hs3 : db s3 = db s /\ storeReachable h s3 = true).
  { assert (Hr2 : storeReachable h s2 = true)
      by (rewrite (storeReachable_dir h s1 s2 Hdir2); exact Hr1).
    subst s3. destruct err2; simpl; split; try congruence; exact Hr2. }
  destruct Hs3 as [Hdb3 Hr3].
  destruct (StoreLatestTweetID_cursor h req2 s3 Hr3) as [Hc4 Hr4].
  simpl. split; [|split; [|split; [|split]]].
  - change (cursor (fst (StoreLatestTweetID h req2 s3))
            = advance (cursor s) (newestOf req2)).
    rewrite Hc4. unfold cursor. rewrite Hdb3. reflexivity.
  - exact Hr4.
  - congruence.
  - rewrite Hq2 by discriminate. exact Hsince1.
  - unfold newestOf. destruct tw as [t|], err2 as [e|]; try contradiction.
    + destruct Hres as [-> _]. reflexivity.
    + rewrite Hres, Htw1. reflexivity.
Qed.

End TickFacts.

(** X9.  Each tick asks only for what is new: on a store that can be
    opened, the request that leaves the locked part of [run] carries the
    stored cursor as its [since_id]; with no cursor stored it carries the
    [since_id] it came with. *)
Theorem tick_asks_since_cursor (h : Host) (lib : Library) (req : Req) (s : State) :
  storeReachable h s = true ->
  (forall c, cursor s = Some c ->
     queryParam "since_id" (fst (fst (runLocked h lib req s))) = Some c) /\
  (cursor s = None ->
     queryParam "since_id" (fst (fst (runLocked h lib req s)))
     = queryParam "since_id" req).
Proof.
  intros Hr. destruct (runLocked_spec h lib req s Hr) as (_ & _ & _ & Hs & _).
  split; [intros c Hc|intros Hc]; rewrite Hc in Hs; exact Hs.
Qed.

Lemma tick_asks_since_cursor_witness :
  let s := storeAll demoHost [withNewestID "150" (NewReq [])] freshState in
  let req := NewReq [WithUsers ["markets"]; WithKeywords (fun s => s) ["oil"]] in
  storeReachable demoHost s = true /\
  queryParam "since_id"
    (fst (fst (runLocked demoHost (demoLibrary 200 bodyTweets) req s))) = Some "150".
Proof.
  intros s req. split; [reflexivity|].
  exact (proj1 (tick_asks_since_cursor demoHost (demoLibrary 200 bodyTweets) req s eq_refl)
           "150" eq_refl).
Defined.

(** X10.  What a tick does to the cursor, on a store that can be opened:
    it offers the newest id the request holds to the guarded write.  After
    a fetch that returned a result that is the newest id of the result;
    after a failed fetch it is the id the request held before, offered
    again.  Either way the cursor is never moved down. *)
Theorem tick_advances_cursor (h : Host) (lib : Library) (req : Req) (s : State) :
  storeReachable h s = true ->
  (forall t, snd (runLocked h lib req s) = Some t ->
     cursor (snd (fst (runLocked h lib req s)))
     = advance (cursor s) (NewestID (meta t))) /\
  (snd (runLocked h lib req s) = None ->
     cursor (snd (fst (runLocked h lib req s)))
     = advance (cursor s) (newestOf req)) /\
  (forall p, cursor s = Some p ->
     exists c, cursor (snd (fst (runLocked h lib req s))) = Some c /\
               String.leb p c = true).
Proof.
  intros Hr. destruct (runLocked_spec h lib req s Hr) as (Hc & _ & _ & _ & Hn).
  split; [|split].
  - intros t Ht. rewrite Ht in Hn. rewrite Hc, Hn. reflexivity.
  - intros Ht. rewrite Ht in Hn. rewrite Hc, Hn. reflexivity.
  - intros p Hp. rewrite Hc. apply advance_mono. exact Hp.
Qed.

(** Scenario 3 of the specification at the level of the loop: the cursor
    is 200 and the fetch reports 150 as newest. *)
Lemma tick_advances_cursor_witness :
  let s := storeAll demoHost [withNewestID "200" (NewReq [])] freshState in
  let req := NewReq [WithUsers ["markets"]; WithKeywords (fun s => s) ["oil"]] in
  storeReachable demoHost s = true /\
  snd (runLocked demoHost (demoLibrary 200 bodyTweets) req s) = Some demoTweets /\
  cursor (snd (fst (runLocked demoHost (demoLibrary 200 bodyTweets) req s)))
  = Some "200".
Proof.
  intros s req. split; [reflexivity|]. split; [vm_compute; reflexivity|].
  exact (proj1 (tick_advances_cursor demoHost (demoLibrary 200 bodyTweets) req s eq_refl)
           demoTweets eq_refl).
Defined.

(** ** The loop *)

Lemma StoreLatestSearchTerms_untouched (h : Host) (r : Req) (s : State) :
  tdata (fst (StoreLatestSearchTerms h r s)) = tdata s /\
  calls (fst (StoreLatestSearchTerms h r s)) = calls s.
Proof.
  unfold StoreLatestSearchTerms, Update. destruct (openStore_untouched h s) as (_ & Ht & Hc).
  destruct (openStore h s) as [s1 [e|]]; simpl in *; [auto|].
  break_matches; auto.
Qed.

Lemma GetLatestSearchTerms_untouched (h : Host) (s : State) :
  tdata (fst (GetLatestSearchTerms h s)) = tdata s /\
  calls (fst (GetLatestSearchTerms h s)) = calls s.
Proof.
  unfold GetLatestSearchTerms. destruct (openStore_untouched h s) as (_ & Ht & Hc).
  destruct (openStore h s) as [s1 [e|]]; simpl in *; [auto|].
  break_matches; auto.
Qed.

Section LoopMore.
Variable h : Host.
Variable lib : Library.

(** Notifying touches neither the store, nor [tdata], nor the transport. *)
Lemma forward_frame (o : NotifierObj) (data : list (gmap string string)) (s : State) :
  exists s',
    forward lib (Some o) data s = Returned s' /\
    calls s' = calls s /\ tdata s' = tdata s /\ db s' = db s /\
    dir_exists s' = dir_exists s.
Proof.
  revert s. induction data as [|tweet rest IH]; intros s; simpl.
  - exists s. repeat split.
  - destruct (tweet !! "text") as [msg|]; [|apply IH].
    destruct (IH (fst (Notify (PostMessage lib) (notifier o) msg (notifyArgs o) s)))
      as (s' & Hf & Hc & Ht & Hd & Hx).
    exists s'. split; [exact Hf|].
    rewrite Hc, Ht, Hd, Hx. unfold Notify.
    destruct (PostMessage lib _ _ _); repeat split.
Qed.

(** A tick with a notifier, a bearer token and a transport that answers:
    it returns after one round trip, and of [tdata] it changes only the
    result pointer. *)
Lemma run_answers (o : NotifierObj) (req : Req) (s : State) (token : string) :
  TWITTER_BEARER_TOKEN h = Some token ->
  answers lib ->
  exists req2 s',
    run h lib (Some o) req s = Returned (req2, s') /\
    calls s' = S (calls s) /\
    Started (tdata s') = Started (tdata s) /\
    Cancel (tdata s') = Cancel (tdata s) /\
    SearchTerms (tdata s') = SearchTerms (tdata s) /\
    keywordFilter req2 = keywordFilter req /\
    (storeReachable h s = true -> storeReachable h s' = true).
Proof.
  intros Htok [Hurl Hdo].
  pose proof (fun Hr => runLocked_spec h lib req s Hr) as Hspec.
  unfold run. unfold runLocked in *.
  destruct (GetLatestTweetID_untouched h s) as [Ht1 Hc1].
  destruct (GetLatestTweetID h s) as [s1 [id err]]. simpl in *.
  set (req1 := match err with None => SetSinceTweetID id req | Some _ => req end) in *.
  assert (Hkw1 : keywordFilter req1 = keywordFilter req)
    by (subst req1; destruct err; reflexivity).
  destruct (Hdo (calls s1) (urlString (Encode lib) (parseQuery req1)) token) as [resp Hresp].
  rewrite (Get_response h (Encode lib) (validURL lib) (Do lib) (jsonValid lib)
             (jsonDecode lib) req1 s1 token resp Htok (Hurl _) Hresp) in *.
  simpl in *.
  set (req2 := setTweets _ (parseQuery req1)) in *.
  destruct (StoreLatestTweetID_untouched h req2 (bumpCalls s1)) as [Ht4 Hc4].
  set (s4 := fst (StoreLatestTweetID h req2 (bumpCalls s1))) in *.
  destruct (forward_frame o
              (Data (Unmarshal (jsonValid lib) (jsonDecode lib) (body resp) (tweets req1)))
              (setTweetsPtr
                 (Some (Unmarshal (jsonValid lib) (jsonDecode lib) (body resp) (tweets req1)))
                 s4)) as (s' & Hf & Hc & Ht & _ & Hd).
  exists req2, s'. rewrite Hf. simpl. split; [reflexivity|].
  rewrite Hc, Ht. simpl. rewrite Ht4, Hc4. simpl. rewrite Ht1, Hc1.
  repeat split.
  - subst req2. simpl. pose proof (parseQuery_set req1) as Hp.
    rewrite Hp. simpl. exact Hkw1.
  - intros Hr. destruct (Hspec Hr) as (_ & Hr4 & _).
    rewrite (storeReachable_dir h _ _ Hd). exact Hr4.
Qed.

Lemma pollLoop_answers (o : NotifierObj) (ws : list wakeup) (req : Req) (s : State)
    (token : string) :
  TWITTER_BEARER_TOKEN h = Some token ->
  answers lib ->
  exists s',
    pollLoop h lib (Some o) ws req s = Returned s' /\
    calls s' = (calls s + ticksBefore ws)%nat /\
    Started (tdata s') = (if existsb isDone ws then false else Started (tdata s)) /\
    Cancel (tdata s') = Cancel (tdata s) /\
    SearchTerms (tdata s') = SearchTerms (tdata s).
Proof.
  intros Htok Hans. revert req s.
  induction ws as [|w ws IH]; intros req s; simpl.
  - exists s. repeat split. lia.
  - destruct w; simpl.
    + destruct (run_answers o req s token Htok Hans)
        as (req2 & s1 & Hr & Hc & Hst & Hcl & Hse & _).
      rewrite Hr. simpl.
      destruct (IH req2 s1) as (s' & Hp & Hc' & Hst' & Hcl' & Hse').
      exists s'. split; [exact Hp|].
      rewrite Hc', Hst', Hcl', Hse', Hc, Hst, Hcl, Hse. repeat split. lia.
    + eexists. split; [reflexivity|]. simpl. repeat split. lia.
Qed.

End LoopMore.

(** X11.  A delivery that fails does not stop the loop over the records:
    with a notifier, [forward] returns for every result list, and the log
    has gained, in the order of the list, one error line for each record
    with a [text] whose delivery failed, and nothing else; the store and
    [tdata] are as before. *)
Theorem failed_deliveries_logged
    (lib : Library) (o : NotifierObj) (data : list (gmap string string)) (s : State) :
  exists s',
    forward lib (Some o) data s = Returned s' /\
    log s' = log s ++ failedDeliveries lib o data /\
    db s' = db s /\ tdata s' = tdata s.
Proof.
  revert s. induction data as [|tweet rest IH]; intros s; simpl.
  - exists s. split; [reflexivity|]. split; [symmetry; apply app_nil_r|]. auto.
  - unfold failedDeliveries. simpl. fold (failedDeliveries lib o rest).
    destruct (tweet !! "text") as [msg|]; simpl; [|apply IH].
    destruct (IH (fst (Notify (PostMessage lib) (notifier o) msg (notifyArgs o) s)))
      as (s' & Hf & Hl & Hd & Ht).
    exists s'. split; [exact Hf|]. rewrite Hl, Hd, Ht. unfold Notify.
    destruct (PostMessage lib (client (notifier o)) (notifyArgs o) msg) as [e|]; simpl.
    + rewrite <- app_assoc. auto.
    + auto.
Qed.

(** X12.  With a notifier, a bearer token and a transport that answers
    every round trip, the loop never panics.  Over any sequence of
    wakeups it makes one round trip per timer wakeup that comes before
    the first cancellation and none after it; it leaves [Started] false
    if a cancellation came and as it was otherwise; and it never touches
    the cancel function or the search terms of [tdata]. *)
Theorem loop_polls_until_cancelled
    (h : Host) (lib : Library) (o : NotifierObj) (ws : list wakeup)
    (req : Req) (s : State) (token : string) :
  TWITTER_BEARER_TOKEN h = Some token ->
  answers lib ->
  exists s',
    pollLoop h lib (Some o) ws req s = Returned s' /\
    calls s' = (calls s + ticksBefore ws)%nat /\
    Started (tdata s') = (if existsb isDone ws then false else Started (tdata s)) /\
    Cancel (tdata s') = Cancel (tdata s) /\
    SearchTerms (tdata s') = SearchTerms (tdata s).
Proof. apply pollLoop_answers. Qed.

Lemma demoLibrary_answers (status : Z) (bodyText : string) :
  answers (demoLibrary status bodyText).
Proof. split; [reflexivity|]. intros n url token. eexists. reflexivity. Qed.

(** Two ticks, a cancellation, and a tick that comes too late. *)
Lemma loop_polls_until_cancelled_witness :
  let lib := demoLibrary 200 bodyTweets in
  let o := mkNotifierObj (mkSlack "xoxb") (mkSlackArgs "C042" None) in
  let req := NewReq [WithUsers ["markets"]; WithKeywords (quoteTail lib) ["oil"]] in
  let s := setStarted true freshState in
  TWITTER_BEARER_TOKEN demoHost = Some "bearer" /\
  answers lib /\
  exists s',
    pollLoop demoHost lib (Some o) [TimerFired; TimerFired; CtxDone; TimerFired] req s
    = Returned s' /\
    calls s' = 2%nat /\
    Started (tdata s') = false.
Proof.
  intros lib o req s. split; [reflexivity|].
  split; [apply demoLibrary_answers|].
  destruct (loop_polls_until_cancelled demoHost lib o
              [TimerFired; TimerFired; CtxDone; TimerFired] req s "bearer" eq_refl
              (demoLibrary_answers 200 bodyTweets)) as (s' & Hp & Hc & Hs & _).
  exists s'. split; [exact Hp|]. split; [exact Hc|exact Hs].
Defined.

(** X13.  What [start] has done once it is blocked or cancelled, with a
    notifier, a bearer token, a transport that answers and a store that
    can be opened: it has made the immediate round trip and one more per
    timer wakeup before the first cancellation; [Started] is true until a
    cancellation comes and false after; and the search terms shown are the
    escaped keywords, joined by commas and split at commas again. *)
Theorem start_publishes_search_terms
    (h : Host) (lib : Library) (ctx : Ctx) (o : NotifierObj) (ws : list wakeup)
    (s : State) (token : string) :
  TWITTER_BEARER_TOKEN h = Some token ->
  answers lib ->
  storeReachable h s = true ->
  keyNotifierObj ctx = Some o ->
  exists s',
    start h lib ctx ws s = Returned s' /\
    calls s' = (calls s + 1 + ticksBefore ws)%nat /\
    Started (tdata s') = negb (existsb isDone ws) /\
    SearchTerms (tdata s')
    = Split (Join (map (escapeKeyword (quoteTail lib)) (keyKeywords ctx)) ",") comma.
Proof.
  intros Htok Hans Hr Ho. unfold start. rewrite Ho.
  set (req := NewReq [WithUsers ["markets"];
                      WithKeywords (quoteTail lib) (keyKeywords ctx)]).
  destruct (run_answers h lib o req (setStarted true s) token Htok Hans)
    as (req1 & s1 & Hrun & Hc1 & Hst1 & _ & _ & Hkw1 & Hr1).
  rewrite Hrun. simpl.
  specialize (Hr1 Hr).
  destruct (StoreLatestSearchTerms_spec h req1 s1 Hr1) as (_ & Hterms & Hr2 & _).
  destruct (StoreLatestSearchTerms_untouched h req1 s1) as [Ht2 Hc2].
  set (s2 := fst (StoreLatestSearchTerms h req1 s1)) in *.
  destruct (GetLatestSearchTerms_spec h s2 Hr2) as (_ & Hg). rewrite Hterms in Hg.
  destruct (GetLatestSearchTerms_untouched h s2) as [Ht3 Hc3].
  destruct (GetLatestSearchTerms h s2) as [s3 [st err]]. simpl in *.
  injection Hg as -> ->.
  destruct (pollLoop_answers h lib o ws req1
              (setSearchTerms (Split (Join (keywordFilter req1) ",") comma) s3)
              token Htok Hans) as (s' & Hp & Hc & Hst & _ & Hse).
  exists s'. split; [exact Hp|]. rewrite Hc, Hst, Hse. simpl.
  rewrite Hc3, Hc2, Hc1, Ht3, Ht2, Hst1, Hkw1. simpl.
  split; [lia|]. split; [destruct (existsb isDone ws); reflexivity|reflexivity].
Qed.

Lemma start_publishes_search_terms_witness :
  let lib := demoLibrary 200 bodyTweets in
  let o := mkNotifierObj (mkSlack "xoxb") (mkSlackArgs "C042" None) in
  let ctx := mkCtx 0 ["oil"; "central bank"] threeMinutes (Some o) in
  TWITTER_BEARER_TOKEN demoHost = Some "bearer" /\
  answers lib /\
  storeReachable demoHost freshState = true /\
  keyNotifierObj ctx = Some o /\
  exists s',
    start demoHost lib ctx [TimerFired] freshState = Returned s' /\
    calls s' = 2%nat /\
    Started (tdata s') = true /\
    SearchTerms (tdata s') = ["oil"; inQuotes "central bank"].
Proof.
  intros lib o ctx. split; [reflexivity|].
  split; [apply demoLibrary_answers|]. split; [reflexivity|]. split; [reflexivity|].
  destruct (start_publishes_search_terms demoHost lib ctx o [TimerFired] freshState
              "bearer" eq_refl (demoLibrary_answers 200 bodyTweets) eq_refl eq_refl)
    as (s' & Hp & Hc & Hs & Hse).
  exists s'. split; [exact Hp|]. split; [exact Hc|]. split; [exact Hs|exact Hse].
Defined.

(** ** The handlers, further *)

(** X14.  Only a POST can change anything: for every other method both
    handlers return the state as it is, [startHandler] spawns nothing, and
    the reply carries the CORS headers with status 200 and an empty body
    for OPTIONS and status 400 for anything else. *)
Theorem only_post_changes_state (h : Host) (lib : Library) (req : Request) (s : State) :
  Method req <> "POST" ->
  exists reply,
    startHandler h lib req s = Returned (s, reply, None) /\
    stopHandler req s = Returned (s, reply) /\
    replyHeader reply = corsHeader /\
    replyStatus reply = (if String.eqb (Method req) "OPTIONS" then 200%Z else 400%Z) /\
    (Method req = "OPTIONS" -> replyBody reply = "").
Proof.
  intros Hm. unfold startHandler, stopHandler.
  destruct (String.eqb_spec (Method req) "OPTIONS") as [Ho|Ho].
  - eexists. repeat split.
  - destruct (String.eqb_spec (Method req) "POST") as [Hp|Hp]; [contradiction|].
    eexists. repeat split. intros Ho'. contradiction.
Qed.

Lemma only_post_changes_state_witness :
  let s := bootState demoHost "localhost" 3000 in
  let req := mkRequest "GET" "" in
  Method req <> "POST" /\
  exists reply,
    startHandler demoHost (demoLibrary 200 bodyTweets) req s = Returned (s, reply, None) /\
    stopHandler req s = Returned (s, reply) /\
    replyHeader reply = corsHeader /\
    replyStatus reply = (if String.eqb (Method req) "OPTIONS" then 200%Z else 400%Z) /\
    (Method req = "OPTIONS" -> replyBody reply = "").
Proof.
  intros s req.
  refine ((fun H => conj H (only_post_changes_state demoHost (demoLibrary 200 bodyTweets)
                              req s H)) _).
  discriminate.
Defined.

(** X15.  A start command that names a Slack channel, received while
    [Started] is false: without [SLACK_ACCESS_TOKEN] it ends the process
    with exit code 1; with the token it is accepted, and the goroutine
    gets a notifier for that channel with no attachment, the keywords
    split at commas and trimmed, an interval of three minutes, and a
    fresh context whose cancel function is the one [tdata] now holds.
    The store is not touched. *)
Theorem start_with_channel
    (h : Host) (lib : Library) (req : Request) (s : State) (channel : string) :
  Method req = "POST" ->
  Started (tdata s) = false ->
  decodeKeyVal lib (reqBody req) !! "slackChannelID" = Some channel ->
  channel <> "" ->
  match SLACK_ACCESS_TOKEN h with
  | None => startHandler h lib req s = Exited 1
  | Some token =>
      exists s1 ctx,
        startHandler h lib req s
        = Returned (s1, httpWrite "Success: Started polling tweets", Some ctx) /\
        keyNotifierObj ctx
        = Some (mkNotifierObj (mkSlack token) (mkSlackArgs channel None)) /\
        keyKeywords ctx
        = map (TrimSpace lib)
              (Split (default "" (decodeKeyVal lib (reqBody req) !! "keywords")) comma) /\
        keyInterval ctx = threeMinutes /\
        ctxID ctx = contexts s /\
        Cancel (tdata s1) = Some (ctxID ctx) /\
        contexts s1 = S (contexts s) /\
        db s1 = db s
  end.
Proof.
  intros Hm Hs Hc Hne. unfold startHandler, NewSlacker. rewrite Hm, Hs, Hc. simpl.
  destruct (String.eqb_spec channel "") as [He|_]; [contradiction|].
  destruct (SLACK_ACCESS_TOKEN h) as [token|]; simpl; [|reflexivity].
  eexists _, _. split; [reflexivity|]. simpl. repeat split.
Qed.

Lemma start_with_channel_witness :
  let lib := mkLibrary (fun s => s) (fun s => s) (fun _ => "") (fun _ => true)
               (fun _ _ _ => inl "down") (fun _ => false) (fun _ t => t)
               (fun _ => {["keywords" := "oil,gold"; "slackChannelID" := "C042"]})
               (fun _ _ _ => None) in
  let h := mkHost (Some "/home/user") true true (Some "bearer") None in
  Method (postRequest "") = "POST" /\
  Started (tdata freshState) = false /\
  decodeKeyVal lib (reqBody (postRequest "")) !! "slackChannelID" = Some "C042" /\
  "C042" <> "" /\
  startHandler h lib (postRequest "") freshState = Exited 1.
Proof.
  intros lib h. split; [reflexivity|]. split; [reflexivity|].
  split; [reflexivity|]. split; [discriminate|].
  exact (start_with_channel h lib (postRequest "") freshState "C042"
           eq_refl eq_refl eq_refl ltac:(discriminate)).
Defined.

(** X16.  Once a start command has registered a cancel function, every
    stop command is accepted, whether or not a loop is running: it calls
    the cancel function, replies with success, and leaves [tdata] with
    its flag and its cancel function as they are, so that a second stop
    is accepted in the same way. *)
Theorem stop_is_repeatable (req : Request) (s : State) (c : nat) :
  Method req = "POST" ->
  Cancel (tdata s) = Some c ->
  exists s1 s2,
    stopHandler req s = Returned (s1, httpWrite "Success: Stopped polling tweets") /\
    stopHandler req s1 = Returned (s2, httpWrite "Success: Stopped polling tweets") /\
    In c (cancelled s1) /\
    tdata s1 = tdata s /\ tdata s2 = tdata s /\
    db s2 = db s.
Proof.
  intros Hm Hc. unfold stopHandler. rewrite Hm. simpl. rewrite Hc.
  eexists _, _. split; [reflexivity|]. simpl. rewrite Hc.
  split; [reflexivity|]. simpl. auto.
Qed.

Lemma stop_is_repeatable_witness :
  let s := setCancel (Some 7%nat) freshState in
  Method (postRequest "") = "POST" /\
  Cancel (tdata s) = Some 7%nat /\
  exists s1 s2,
    stopHandler (postRequest "") s
    = Returned (s1, httpWrite "Success: Stopped polling tweets") /\
    stopHandler (postRequest "") s1
    = Returned (s2, httpWrite "Success: Stopped polling tweets") /\
    In 7%nat (cancelled s1) /\
    tdata s1 = tdata s /\ tdata s2 = tdata s /\
    db s2 = db s.
Proof.
  intros s. split; [reflexivity|]. split; [reflexivity|].
  exact (stop_is_repeatable (postRequest "") s 7%nat eq_refl eq_refl).
Defined.



(** X18.  The search terms survive a restart: on a store that can be
    opened, the [templateData] built right after [StoreLatestSearchTerms]
    shows the keyword filter joined by commas and split at commas, with
    [Started] false and neither a result nor a cancel function; built on
    a store without search terms it shows none. *)
Theorem restart_shows_stored_terms
    (h : Host) (r : Req) (s : State) (host : string) (port : Z) :
  storeReachable h s = true ->
  let t := snd (NewTemplateData h host port (fst (StoreLatestSearchTerms h r s))) in
  SearchTerms t = Split (Join (keywordFilter r) ",") comma /\
  Started t = false /\ Cancel t = None /\ Tweets_ t = None /\
  (storedTerms s = None -> SearchTerms (snd (NewTemplateData h host port s)) = []).
Proof.
  intros Hr.
  destruct (StoreLatestSearchTerms_spec h r s Hr) as (_ & Hst & Hr' & _).
  destruct (GetLatestSearchTerms_spec h _ Hr') as (_ & Hg). rewrite Hst in Hg.
  destruct (GetLatestSearchTerms_spec h s Hr) as (_ & Hg0).
  unfold NewTemplateData.
  destruct (GetLatestSearchTerms h (fst (StoreLatestSearchTerms h r s))) as [s1 [st e]].
  simpl in Hg. injection Hg as -> ->. simpl.
  repeat split. intros Hn. rewrite Hn in Hg0. destruct Hg0 as [e0 Hg0].
  destruct (GetLatestSearchTerms h s) as [s0 [st0 e1]]. simpl in *.
  injection Hg0 as -> ->. reflexivity.
Qed.

Lemma restart_shows_stored_terms_witness :
  let r := NewReq [WithUsers ["markets"]; WithKeywords (fun s => s) ["oil"; "gold"]] in
  storeReachable demoHost freshState = true /\
  SearchTerms (snd (NewTemplateData demoHost "localhost" 3000
                      (fst (StoreLatestSearchTerms demoHost r freshState))))
  = ["oil"; "gold"].
Proof.
  intros r. split; [reflexivity|].
  exact (proj1 (restart_shows_stored_terms demoHost r freshState "localhost" 3000 eq_refl)).
Defined.

(** X19.  A goroutine is spawned only by a POST that finds [Started]
    false, and then always with the success reply, an interval of three
    minutes and at least one keyword: a body without a [keywords] field
    still gives the one keyword that trimming the empty string leaves. *)
Theorem spawn_only_from_idle_post
    (h : Host) (lib : Library) (req : Request) (s s1 : State) (reply : Reply) (ctx : Ctx) :
  startHandler h lib req s = Returned (s1, reply, Some ctx) ->
  Method req = "POST" /\
  Started (tdata s) = false /\
  reply = httpWrite "Success: Started polling tweets" /\
  keyInterval ctx = threeMinutes /\
  keyKeywords ctx <> [] /\
  (decodeKeyVal lib (reqBody req) !! "keywords" = None ->
   keyKeywords ctx = [TrimSpace lib ""]).
Proof.
  unfold startHandler, NewSlacker.
  destruct (String.eqb_spec (Method req) "OPTIONS"); [discriminate|].
  destruct (String.eqb_spec (Method req) "POST") as [Hm|]; [|discriminate].
  destruct (Started (tdata s)); [discriminate|]. simpl.
  assert (Hkw : forall kwStr, map (TrimSpace lib) (Split kwStr comma) <> []).
  { intros kwStr Hn. apply map_eq_nil in Hn. exact (Split_nonempty _ _ Hn). }
  destruct (String.eqb _ ""); simpl.
  - intros [= <- <- <-]. simpl. repeat split; auto.
    intros ->. reflexivity.
  - destruct (SLACK_ACCESS_TOKEN h); simpl; [|discriminate].
    intros [= <- <- <-]. simpl. repeat split; auto.
    intros ->. reflexivity.
Qed.

Lemma spawn_only_from_idle_post_witness :
  let lib := demoLibrary 200 bodyTweets in
  exists s1 ctx,
    startHandler demoHost lib (postRequest "") freshState
    = Returned (s1, httpWrite "Success: Started polling tweets", Some ctx) /\
    keyKeywords ctx = [""].
Proof.
  intros lib. eexists _, _.
  refine ((fun H => conj H
             (proj2 (proj2 (proj2 (proj2 (proj2
                (spawn_only_from_idle_post demoHost lib (postRequest "") freshState
                   _ _ _ H))))) eq_refl)) _).
  reflexivity.
Defined.

(** ** The cursor over the whole loop *)

Lemma run_cursor (h : Host) (lib : Library) (o : NotifierObj) (req req2 : Req)
    (s s' : State) :
  storeReachable h s = true ->
  run h lib (Some o) req s = Returned (req2, s') ->
  cursor s' = advance (cursor s) (newestOf req2).
Proof.
  intros Hr. destruct (runLocked_spec h lib req s Hr) as (Hc & _).
  unfold run. destruct (runLocked h lib req s) as [[r2 s5] [t|]]; simpl in *;
    [|discriminate].
  destruct (forward_frame lib o (Data t) s5) as (s6 & Hf & _ & _ & Hdb & _).
  rewrite Hf. simpl. intros [= <- <-].
  unfold cursor in *. rewrite Hdb. exact Hc.
Qed.

(** X20.  Over the whole loop the cursor never moves down: with a
    notifier, a bearer token, a transport that answers and a store that
    can be opened, whatever the wakeups and whatever newest ids the
    fetches report, a cursor that was stored is still stored when the
    loop blocks or ends, and is at least what it was. *)
Theorem loop_never_rewinds_cursor
    (h : Host) (lib : Library) (o : NotifierObj) (ws : list wakeup)
    (req : Req) (s : State) (token p : string) :
  TWITTER_BEARER_TOKEN h = Some token ->
  answers lib ->
  storeReachable h s = true ->
  cursor s = Some p ->
  exists s' c,
    pollLoop h lib (Some o) ws req s = Returned s' /\
    cursor s' = Some c /\
    String.leb p c = true.
Proof.
  intros Htok Hans. revert req s p.
  induction ws as [|w ws IH]; intros req s p Hr Hp; simpl.
  - exists s, p. split; [reflexivity|]. split; [exact Hp|apply leb_refl].
  - destruct w; simpl.
    + destruct (run_answers h lib o req s token Htok Hans)
        as (req2 & s1 & Hrun & _ & _ & _ & _ & _ & Hr1).
      rewrite Hrun. simpl.
      pose proof (run_cursor h lib o req req2 s s1 Hr Hrun) as Hc.
      destruct (advance_mono (cursor s) (newestOf req2) p Hp) as (q & Hq & Hpq).
      rewrite Hq in Hc.
      destruct (IH req2 s1 q (Hr1 Hr) Hc) as (s' & c & Hl & Hc' & Hqc).
      exists s', c. split; [exact Hl|]. split; [exact Hc'|].
      eapply leb_trans; eassumption.
    + eexists _, p. split; [reflexivity|]. split; [exact Hp|apply leb_refl].
Qed.

(** The cursor is 200 and every fetch reports 150. *)
Lemma loop_never_rewinds_cursor_witness :
  let lib := demoLibrary 200 bodyTweets in
  let o := mkNotifierObj (mkSlack "xoxb") (mkSlackArgs "C042" None) in
  let req := NewReq [WithUsers ["markets"]; WithKeywords (quoteTail lib) ["oil"]] in
  let s := storeAll demoHost [withNewestID "200" (NewReq [])] freshState in
  TWITTER_BEARER_TOKEN demoHost = Some "bearer" /\
  answers lib /\
  storeReachable demoHost s = true /\
  cursor s = Some "200" /\
  exists s' c,
    pollLoop demoHost lib (Some o) [TimerFired; TimerFired] req s = Returned s' /\
    cursor s' = Some c /\
    String.leb "200" c = true.
Proof.
  intros lib o req s. split; [reflexivity|].
  split; [apply demoLibrary_answers|]. split; [reflexivity|]. split; [reflexivity|].
  exact (loop_never_rewinds_cursor demoHost lib o [TimerFired; TimerFired] req s
           "bearer" "200" eq_refl (demoLibrary_answers 200 bodyTweets) eq_refl eq_refl).
Defined.
